(** * gbp-pq: patch-queue management (gbp/scripts/pq.py, gbp/git/modifier.py)

    A shallow embedding of the patch-queue script of git-buildpackage and
    of [GitModifier], with the properties of its branch naming, patch
    transformation, maintainer lookup and time-machine import.

    Python 2 [str] values are byte strings and are modelled by [string];
    [None] is modelled by [option]; Python integers by [Z].  A raised
    exception is the [Raise] case of [res]. *)

From Stdlib Require Import Bool Arith ZArith Lia List Ascii String.
Import ListNotations.

Local Open Scope list_scope.
Local Open Scope string_scope.

(** * Part I: the program *)

(** ** Python values and exceptions *)

Inductive exn : Type :=
| GbpError (msg : string)
| GitRepositoryError
| CommandExecFailed
| GitModifierError (msg : string)
| IndexError
| IOError.

Inductive res (A : Type) : Type :=
| Ok (a : A)
| Raise (e : exn).
Arguments Ok {A} a.
Arguments Raise {A} e.

(** Truth value of a [str]-or-[None] value: [None] and the empty string
    are false. *)
Definition truthy (v : option string) : bool :=
  match v with
  | Some (String _ _) => true
  | _ => false
  end.

(** ['%s' % v] *)
Definition fmt (v : option string) : string :=
  match v with
  | Some s => s
  | None => "None"
  end.

Module Py.

Definition nl : ascii := ascii_of_nat 10.

(** [s.startswith(p)] *)
Definition startswith (s p : string) : bool := String.prefix p s.

(** [s[n:]] for [0 <= n] *)
Fixpoint drop (n : nat) (s : string) : string :=
  match n, s with
  | O, _ => s
  | S _, EmptyString => EmptyString
  | S n', String _ s' => drop n' s'
  end.

(** [len(s)] *)
Definition len (s : string) : nat := String.length s.

(** The characters [str.strip()] removes: space, tab, newline, vertical
    tab, form feed and carriage return. *)
Definition is_space (c : ascii) : bool :=
  let n := nat_of_ascii c in
  Nat.eqb n 32 || (Nat.leb 9 n && Nat.leb n 13).

Fixpoint lstrip (s : string) : string :=
  match s with
  | String c s' => if is_space c then lstrip s' else s
  | EmptyString => EmptyString
  end.

Fixpoint rstrip (s : string) : string :=
  match s with
  | EmptyString => EmptyString
  | String c s' =>
      match rstrip s' with
      | EmptyString => if is_space c then EmptyString else String c EmptyString
      | r => String c r
      end
  end.

(** [s.strip()] *)
Definition strip (s : string) : string := rstrip (lstrip s).

Definition lower_char (c : ascii) : ascii :=
  let n := nat_of_ascii c in
  if Nat.leb 65 n && Nat.leb n 90 then ascii_of_nat (n + 32) else c.

Definition upper_char (c : ascii) : ascii :=
  let n := nat_of_ascii c in
  if Nat.leb 97 n && Nat.leb n 122 then ascii_of_nat (n - 32) else c.

Fixpoint map_chars (f : ascii -> ascii) (s : string) : string :=
  match s with
  | EmptyString => EmptyString
  | String c s' => String (f c) (map_chars f s')
  end.

(** [s.lower()] and [s.upper()] on byte strings (C locale) *)
Definition lower : string -> string := map_chars lower_char.
Definition upper : string -> string := map_chars upper_char.

(** The part of [s] before the first occurrence of [c], and the part
    after it; [None] when [c] does not occur. *)
Fixpoint cut (c : ascii) (s : string) : option (string * string) :=
  match s with
  | EmptyString => None
  | String d s' =>
      if Ascii.eqb d c then Some (EmptyString, s')
      else match cut c s' with
           | Some (a, b) => Some (String d a, b)
           | None => None
           end
  end.

(** [s.split(" ", 1)] *)
Definition split1 (s : string) : list string :=
  match cut " " s with
  | Some (a, b) => [a; b]
  | None => [s]
  end.

(** The lines of a file as iteration over a file object yields them:
    each line keeps its terminating newline, the last one may lack it. *)
Fixpoint lines_from (cur : string) (s : string) : list string :=
  match s with
  | EmptyString =>
      match cur with
      | EmptyString => []
      | _ => [cur]
      end
  | String c s' =>
      if Ascii.eqb c nl then (cur ++ String c EmptyString) :: lines_from EmptyString s'
      else lines_from (cur ++ String c EmptyString) s'
  end.

Definition file_lines (content : string) : list string :=
  lines_from EmptyString content.

Fixpoint ends_with_slash (s : string) : bool :=
  match s with
  | EmptyString => false
  | String c EmptyString => Ascii.eqb c "/"
  | String _ s' => ends_with_slash s'
  end.

(** [os.path.join(a, b)] (posixpath) *)
Definition path_join (a b : string) : string :=
  if startswith b "/" then b
  else if String.eqb a "" || ends_with_slash a then a ++ b
  else a ++ "/" ++ b.

End Py.

(** ** BranchNaming (pq.py, lines 35-73) *)

Definition PQ_BRANCH_PREFIX : string := "patch-queue/".
Definition PATCH_DIR : string := "debian/patches/".
Definition SERIES_FILE : string := Py.path_join PATCH_DIR "series".

(** [[False, True][branch.startswith(PQ_BRANCH_PREFIX)]] *)
Definition is_pq_branch (branch : string) : bool :=
  nth (if Py.startswith branch PQ_BRANCH_PREFIX then 1 else 0)
      [false; true] false.

(** The function falls off its end, returning [None], when [branch] is
    already a patch-queue branch. *)
Definition pq_branch_name (branch : string) : option string :=
  if negb (is_pq_branch branch) then Some (PQ_BRANCH_PREFIX ++ branch)
  else None.

(** Returns [None] when [pq_branch] carries no prefix. *)
Definition pq_branch_base (pq_branch : string) : option string :=
  if is_pq_branch pq_branch
  then Some (Py.drop (Py.len PQ_BRANCH_PREFIX) pq_branch)
  else None.

(** ** The working tree: files and directories

    [file(p, 'r')], [file(p, 'w')], [os.unlink], [shutil.move],
    [os.path.isdir] and [os.makedirs] on a tree of text files. *)

Record FS : Type := mkFS {
  fs_files : list (string * string);
  fs_dirs : list string
}.

Fixpoint lookup {A : Type} (k : string) (m : list (string * A)) : option A :=
  match m with
  | [] => None
  | (k', v) :: m' => if String.eqb k k' then Some v else lookup k m'
  end.

Fixpoint remove {A : Type} (k : string) (m : list (string * A))
  : list (string * A) :=
  match m with
  | [] => []
  | (k', v) :: m' =>
      if String.eqb k k' then remove k m' else (k', v) :: remove k m'
  end.

Definition fs_read (fs : FS) (p : string) : option string :=
  lookup p (fs_files fs).

Definition fs_write (fs : FS) (p content : string) : FS :=
  mkFS ((p, content) :: remove p (fs_files fs)) (fs_dirs fs).

Definition fs_unlink (fs : FS) (p : string) : FS :=
  mkFS (remove p (fs_files fs)) (fs_dirs fs).

Definition fs_move (fs : FS) (src dst : string) : FS :=
  match fs_read fs src with
  | Some content => fs_write (fs_unlink fs src) dst content
  | None => fs
  end.

Definition fs_isdir (fs : FS) (d : string) : bool :=
  existsb (String.eqb d) (fs_dirs fs).

Definition fs_makedirs (fs : FS) (d : string) : FS :=
  mkFS (fs_files fs) (d :: fs_dirs fs).

(** ** PatchTransform: [write_patch] (pq.py, lines 75-116) *)

Record Options : Type := mkOptions {
  patch_numbers : bool;
  time_machine : Z;
  force : bool;
  topic_option : option string
}.

Definition is_digit (c : ascii) : bool :=
  let n := nat_of_ascii c in Nat.leb 48 n && Nat.leb n 57.

(** The longest run of digits at the start of [s], and what follows. *)
Fixpoint span_digits (s : string) : string * string :=
  match s with
  | String c s' =>
      if is_digit c
      then let (ds, r) := span_digits s' in (String c ds, r)
      else (EmptyString, s)
  | EmptyString => (EmptyString, EmptyString)
  end.

(** The longest prefix of [s] a greedy dot-star matches: up to the
    first newline. *)
Fixpoint dot_star (s : string) : string :=
  match s with
  | String c s' => if Ascii.eqb c Py.nl then EmptyString else String c (dot_star s')
  | EmptyString => EmptyString
  end.

(** [re.compile("[0-9]+-(?P<name>.+)").match(s)], giving group [name].
    [[0-9]+] is greedy and what follows a shorter run of digits is a
    digit, not the hyphen, so only the longest run can match. *)
Definition patch_re_match (s : string) : option string :=
  match span_digits s with
  | (String _ _, String "-" r) =>
      match dot_star r with
      | EmptyString => None
      | name => Some name
      end
  | _ => None
  end.

Definition is_topic_line (line : string) : bool :=
  Py.startswith (Py.lower line) "gbp-pq-topic: ".

(** The loop [for line in old] of [write_patch]: the state is the
    current [topic] and the text written to [tmp] so far.  A topic line
    contains a blank, so [split(" ", 1)] has a second element. *)
Fixpoint copy_lines (lines : list string) (topic : option string)
  (written : string) : option string * string :=
  match lines with
  | [] => (topic, written)
  | line :: rest =>
      if is_topic_line line
      then copy_lines rest
             (Some (Py.strip (nth 1 (Py.split1 line) EmptyString))) written
      else copy_lines rest topic (written ++ line)
  end.

Definition write_patch (fs : FS) (patch : string) (options : Options)
  : res string * FS :=
  let oldname := Py.drop (Py.len PATCH_DIR) patch in
  let tmpname := patch ++ ".gbp" in
  match fs_read fs patch with
  | None => (Raise IOError, fs)
  | Some old =>
      (* Skip first line (From <sha1>) *)
      let '(topic, written) := copy_lines (tl (Py.file_lines old)) None "" in
      let fs := fs_write fs tmpname written in
      let newname :=
        if negb (patch_numbers options)
        then match patch_re_match oldname with
             | Some name => name
             | None => oldname
             end
        else oldname in
      let topicdir :=
        if truthy topic then Py.path_join PATCH_DIR (fmt topic)
        else PATCH_DIR in
      let fs := if negb (fs_isdir fs topicdir)
                then fs_makedirs fs topicdir else fs in
      let fs := fs_unlink fs patch in
      let dstname := Py.path_join topicdir newname in
      let fs := fs_move fs tmpname dstname in
      (Ok dstname, fs)
  end.

(** ** GitModifier (modifier.py) *)

Record GitModifier : Type := mkGitModifier {
  gm_name : option string;
  gm_email : option string;
  gm_date : option string
}.

(** [d[k] = v] on a dictionary *)
Definition dict_set (d : list (string * string)) (k v : string)
  : list (string * string) :=
  (k, v) :: remove k d.

Definition _get_env (self : GitModifier) (who : string)
  : res (list (string * string)) :=
  let who := Py.upper who in
  if negb (existsb (String.eqb who) ["AUTHOR"; "COMMITTER"])
  then Raise (GitModifierError "Neither comitter nor author")
  else
    let extra_env := [] in
    let extra_env :=
      if truthy (gm_name self)
      then dict_set extra_env ("GIT_" ++ who ++ "_NAME") (fmt (gm_name self))
      else extra_env in
    let extra_env :=
      if truthy (gm_email self)
      then dict_set extra_env ("GIT_" ++ who ++ "_EMAIL") (fmt (gm_email self))
      else extra_env in
    let extra_env :=
      if truthy (gm_date self)
      then dict_set extra_env ("GIT_" ++ who ++ "_DATE") (fmt (gm_date self))
      else extra_env in
    Ok extra_env.

Definition get_author_env (self : GitModifier) := _get_env self "author".
Definition get_committer_env (self : GitModifier) := _get_env self "committer".

(** ** AuthorResolver: [get_maintainer_from_control] (pq.py, lines 151-160) *)

Fixpoint skip_blanks (s : string) : string :=
  match s with
  | String " " s' => skip_blanks s'
  | _ => s
  end.

(** The text before the leftmost occurrence of [pat] in [s] and the text
    after it. *)
Fixpoint find_sub (pat s : string) : option (string * string) :=
  if String.prefix pat s then Some (EmptyString, Py.drop (String.length pat) s)
  else match s with
       | EmptyString => None
       | String c s' =>
           match find_sub pat s' with
           | Some (a, b) => Some (String c a, b)
           | None => None
           end
       end.

(** One line through [sed -n -e "s/Maintainer: \+\(.*\)/\1/p"]: the
    leftmost [Maintainer:] followed by one or more blanks is replaced,
    together with the rest of the line, by what stands after the blanks;
    only lines where this happened are printed. *)
Definition sed_maintainer (line : string) : option string :=
  match find_sub "Maintainer: " (dot_star line) with
  | Some (before, after) => Some (before ++ skip_blanks after ++ String Py.nl "")
  | None => None
  end.

Fixpoint filter_map {A B : Type} (f : A -> option B) (l : list A) : list B :=
  match l with
  | [] => []
  | x :: l' =>
      match f x with
      | Some y => y :: filter_map f l'
      | None => filter_map f l'
      end
  end.

(** What the [sed] process writes to its standard output; nothing when
    [debian/control] cannot be read. *)
Definition sed_output (control : option string) : list string :=
  match control with
  | Some content => filter_map sed_maintainer (Py.file_lines content)
  | None => []
  end.

Fixpoint no_newline (s : string) : bool :=
  match s with
  | EmptyString => true
  | String c s' => negb (Ascii.eqb c Py.nl) && no_newline s'
  end.

Fixpoint take (n : nat) (s : string) : string :=
  match n, s with
  | S n', String c s' => String c (take n' s')
  | _, _ => EmptyString
  end.

(** The text before the last [>] on the first line of [s]: the greedy
    match of the email group. *)
Fixpoint before_last_gt (s : string) : option string :=
  match s with
  | EmptyString => None
  | String c s' =>
      if Ascii.eqb c Py.nl then None
      else match before_last_gt s' with
           | Some e => Some (String c e)
           | None => if Ascii.eqb c ">" then Some EmptyString else None
           end
  end.

(** The pattern of line 156 (a name ending in a non-blank, blanks, an
    email in angle brackets) with the starred dot of the name consuming
    [k] characters. *)
Definition maintainer_at (s : string) (k : nat) : option (string * string) :=
  if no_newline (take k s) then
    match Py.drop k s with
    | String c rest =>
        if Ascii.eqb c " " then None
        else match skip_blanks rest with
             | String "<" r =>
                 match before_last_gt r with
                 | Some email => Some (take (S k) s, email)
                 | None => None
                 end
             | _ => None
             end
    | EmptyString => None
    end
  else None.

(** The greedy star tries the longest name first and backs off one
    character at a time. *)
Fixpoint maintainer_search (s : string) (k : nat) : option (string * string) :=
  match maintainer_at s k with
  | Some r => Some r
  | None =>
      match k with
      | O => None
      | S k' => maintainer_search s k'
      end
  end.

(** [re.match] of the maintainer pattern at the start of [s] *)
Definition maintainer_re_match (s : string) : option (string * string) :=
  maintainer_search s (String.length s).

(** [control] is the content of [debian/control], [None] when the file
    is missing.  [readlines()[0]] raises [IndexError] on no output. *)
Definition get_maintainer_from_control (control : option string)
  : res (option string * option string) :=
  match sed_output control with
  | [] => Raise IndexError
  | first :: _ =>
      let maintainer := Py.strip first in
      match maintainer_re_match maintainer with
      | Some (name, email) => Ok (Some name, Some email)
      | None => Ok (None, None)
      end
  end.

(** ** The repository and the working tree of the import engine *)

Record Identity : Type := mkIdentity {
  id_name : option string;
  id_email : option string;
  id_date : option string
}.

(** A commit is its content: message, author and first parent. *)
Inductive commit : Type :=
| Initial (msg : string) (author : Identity)
| Commit (msg : string) (author : Identity) (parent : commit).

Definition first_parent (c : commit) : option commit :=
  match c with
  | Initial _ _ => None
  | Commit _ _ p => Some p
  end.

Record Patch : Type := mkPatch {
  path : string;
  author : option string;
  email : option string;
  date : option string;
  subject : string;
  long_desc : string;
  topic : option string
}.

(** The calls made on the repository, in the order they are made. *)
Inductive Event : Type :=
| EvCheckout (branch : string)
| EvSetBranch (branch : string)
| EvCreateBranch (branch : string) (at_commit : commit)
| EvDeleteBranch (branch : string)
| EvApplyPatch (p : string).

Record World : Type := mkWorld {
  branches : list (string * commit);
  head : string;
  control : option string;
  series_files : list (string * list Patch);
  tmpdirs : list string;
  log : list Event
}.

Definition M (A : Type) : Type := World -> res A * World.

Definition ret {A : Type} (a : A) : M A := fun w => (Ok a, w).
Definition raise {A : Type} (e : exn) : M A := fun w => (Raise e, w).
Definition bind {A B : Type} (m : M A) (k : A -> M B) : M B :=
  fun w =>
    match m w with
    | (Ok a, w') => k a w'
    | (Raise e, w') => (Raise e, w')
    end.

Notation "x <- m ;; k" := (bind m (fun x => k))
  (at level 61, m at next level, right associativity).
Notation "m ;;; k" := (bind m (fun _ => k))
  (at level 61, right associativity).

Definition emit (e : Event) (w : World) : World :=
  mkWorld (branches w) (head w) (control w) (series_files w) (tmpdirs w)
          (log w ++ [e])%list.

Definition with_branches (bs : list (string * commit)) (w : World) : World :=
  mkWorld bs (head w) (control w) (series_files w) (tmpdirs w) (log w).

Definition with_head (h : string) (w : World) : World :=
  mkWorld (branches w) h (control w) (series_files w) (tmpdirs w) (log w).

Section Repository.

(** Whether a patch applies to the tree of a commit, and whether the
    repository lets a branch of a given name be created, are decided
    outside this program. *)
Variable patch_applies : commit -> Patch -> bool.
Variable branch_creatable : string -> bool.
(** The characters [tempfile.mkdtemp] appends to its prefix. *)
Variable mkdtemp_suffix : string.

(** Modelled from the spec: the version-control collaborator
    (gbp.git.GitRepository), which is not part of these sources: branch
    existence, creation, deletion and checkout, first-parent commit
    enumeration bounded by a count, patch application and commit
    creation with the current HEAD as sole parent, and reading the
    current branch. *)
Definition has_branch (b : string) (w : World) : bool :=
  match lookup b (branches w) with Some _ => true | None => false end.

Definition get_branch (w : World) : string := head w.

Definition checkout (b : string) : M unit :=
  fun w => (Ok tt, emit (EvCheckout b) (with_head b w)).

Definition set_branch (b : string) : M unit :=
  fun w => (Ok tt, emit (EvSetBranch b) (with_head b w)).

Definition create_branch (b : string) (c : commit) : M unit :=
  fun w =>
    let w := emit (EvCreateBranch b c) w in
    if has_branch b w || negb (branch_creatable b)
    then (Raise CommandExecFailed, w)
    else (Ok tt, with_branches ((b, c) :: branches w) w).

Definition delete_branch (b : string) : M unit :=
  fun w => (Ok tt, emit (EvDeleteBranch b) (with_branches (remove b (branches w)) w)).

Fixpoint first_parent_walk (n : nat) (c : commit) : list commit :=
  match n with
  | O => []
  | S n' =>
      c :: match first_parent c with
           | Some p => first_parent_walk n' p
           | None => []
           end
  end.

(** [repo.get_commits(options=['-%d' % tries], first_parent=True)]: at
    most [tries] commits from the tip of the current branch, most recent
    first. *)
Definition get_commits (tries : Z) (w : World) : list commit :=
  match lookup (head w) (branches w) with
  | Some tip => first_parent_walk (Z.to_nat tries) tip
  | None => []
  end.

(** [apply_patch], [write_tree], [commit_tree] and [update_ref] of
    [apply_and_commit_patch]. *)
Definition apply_patch (patch : Patch) : M commit :=
  fun w =>
    let w := emit (EvApplyPatch (path patch)) w in
    match lookup (head w) (branches w) with
    | Some tip =>
        if patch_applies tip patch then (Ok tip, w)
        else (Raise CommandExecFailed, w)
    | None => (Raise GitRepositoryError, w)
    end.

Definition commit_on_head (c : commit) : M unit :=
  fun w =>
    (Ok tt, with_branches ((head w, c) :: remove (head w) (branches w)) w).

(** Modelled from the spec: [PatchSeries.read_series_file] of
    gbp.patch_series, not part of these sources: the patch series of a
    manifest file, in application order. *)
Definition read_series_file (series : string) : M (list Patch) :=
  fun w =>
    match lookup series (series_files w) with
    | Some queue => (Ok queue, w)
    | None => (Raise IOError, w)
    end.

(** ** [safe_patches] (pq.py, lines 163-183) *)

(** [os.path.basename(p)]: what follows the last slash. *)
Fixpoint basename (p : string) : string :=
  match p with
  | EmptyString => EmptyString
  | String c p' =>
      match Py.cut "/" p with
      | Some _ => basename p'
      | None => p
      end
  end.

(** [shutil.copytree] copies the directory of the series file, so the
    copied manifest reads as the original one. *)
Definition safe_patches (series : string) : M (string * string) :=
  fun w =>
    let name := basename series in
    let tmpdir := Py.path_join ".git/" ("gbp-pq" ++ mkdtemp_suffix) in
    let patches := Py.path_join tmpdir "patches" in
    let series' := Py.path_join patches name in
    match lookup series (series_files w) with
    | Some queue =>
        (Ok (tmpdir, series'),
         mkWorld (branches w) (head w) (control w)
                 ((series', queue) :: series_files w)
                 (tmpdir :: tmpdirs w) (log w))
    | None => (Raise IOError, w)
    end.

(** [shutil.rmtree(tmpdir)] *)
Definition rmtree (tmpdir : string) : M unit :=
  fun w =>
    (Ok tt,
     mkWorld (branches w) (head w) (control w)
             (filter (fun kv => negb (Py.startswith (fst kv) (tmpdir ++ "/")))
                     (series_files w))
             (filter (fun d => negb (String.eqb d tmpdir)) (tmpdirs w))
             (log w)).

(** ** [apply_and_commit_patch] (pq.py, lines 275-297) *)

Definition commit_msg (patch : Patch) (topic : option string) : string :=
  let msg := subject patch ++ String Py.nl (String Py.nl "") ++ long_desc patch in
  if truthy topic
  then msg ++ String Py.nl "" ++ "Gbp-Pq-Topic: " ++ fmt topic
  else msg.

(** Lines 277-289: the [author] dictionary. *)
Definition resolve_author (patch : Patch) : M Identity :=
  fun w =>
    let author0 := mkIdentity (author patch) (email patch) (date patch) in
    if negb (truthy (author patch) && truthy (email patch))
    then match get_maintainer_from_control (control w) with
         | Raise e => (Raise e, w)
         | Ok (name, email) =>
             if truthy name
             then (Ok (mkIdentity name email (date patch)), w)
             else (Ok author0, w)
         end
    else (Ok author0, w).

Definition apply_and_commit_patch (patch : Patch) (topic : option string)
  : M unit :=
  author <- resolve_author patch ;;
  tip <- apply_patch patch ;;
  commit_on_head (Commit (commit_msg patch topic) author tip).

(** ** [drop_pq] (pq.py, lines 300-311) *)

Definition drop_pq (branch : string) : M unit :=
  if is_pq_branch branch then raise (GbpError "")
  else
    let pq_branch := fmt (pq_branch_name branch) in
    fun w =>
      if has_branch pq_branch w then delete_branch pq_branch w
      else (Ok tt, w).

(** ** ImportEngine: [import_quilt_patches] (pq.py, lines 186-249) *)

(** The exceptions the inner loop catches (line 237). *)
Definition caught (e : exn) : bool :=
  match e with
  | GbpError _ | GitRepositoryError | CommandExecFailed => true
  | _ => false
  end.

Inductive attempt : Type := AllApplied | ApplyFailed.

(** Lines 233-243: [for patch in queue] with its [else] branch. *)
Fixpoint apply_queue (branch pq_branch : string) (queue : list Patch)
  : M attempt :=
  match queue with
  | [] => ret AllApplied
  | patch :: rest =>
      fun w =>
        match apply_and_commit_patch patch (topic patch) w with
        | (Ok _, w1) => apply_queue branch pq_branch rest w1
        | (Raise e, w1) =>
            if caught e
            then (set_branch branch ;;; delete_branch pq_branch ;;;
                  ret ApplyFailed) w1
            else (Raise e, w1)
        end
  end.

(** Lines 225-245: [for commit in commits] with its [else] branch. *)
Fixpoint try_commits (branch pq_branch : string) (queue : list Patch)
  (commits : list commit) : M unit :=
  match commits with
  | [] => raise (GbpError "Couldn't apply patches")
  | commit :: rest =>
      (fun w =>
         match create_branch pq_branch commit w with
         | (Raise CommandExecFailed, w1) =>
             (Raise (GbpError ("Cannot create patch-queue branch '"
                                 ++ pq_branch ++ "'.")), w1)
         | r => r
         end) ;;;
      set_branch pq_branch ;;;
      a <- apply_queue branch pq_branch queue ;;
      match a with
      | AllApplied => ret tt
      | ApplyFailed => try_commits branch pq_branch queue rest
      end
  end.

(** Lines 198-216: the branch preconditions.  The result is the branch
    the queue is based on and the name of its patch-queue branch.  A
    name that is [None] reaches the repository as [fmt] prints it. *)
Definition import_branches (branch : string) (force : bool)
  : M (string * string) :=
  bp <-
    (if is_pq_branch branch then
       if force then
         let branch := fmt (pq_branch_base branch) in
         let pq_branch := fmt (pq_branch_name branch) in
         checkout branch ;;; ret (branch, pq_branch)
       else raise (GbpError "")
     else ret (branch, fmt (pq_branch_name branch))) ;;
  let '(branch, pq_branch) := bp in
  (fun w =>
     if has_branch pq_branch w then
       if force then drop_pq branch w
       else (Raise (GbpError ("Patch queue branch '" ++ pq_branch
                 ++ "'. already exists. Try 'rebase' instead.")), w)
     else (Ok tt, w)) ;;;
  ret (branch, pq_branch).

(** Lines 218-249: the time machine. *)
Definition import_time_machine (branch pq_branch series : string)
  (tries : Z) : M unit :=
  commits <- (fun w => (Ok (get_commits tries w), w)) ;;
  ts <- (if Nat.ltb 1 (List.length commits)
         then r <- safe_patches series ;; ret (Some (fst r), snd r)
         else ret (None, series)) ;;
  let '(tmpdir, series) := ts in
  queue <- read_series_file series ;;
  try_commits branch pq_branch queue commits ;;;
  if truthy tmpdir then rmtree (fmt tmpdir) else ret tt.

Definition import_quilt_patches (branch series : string) (tries : Z)
  (force : bool) : M unit :=
  bp <- import_branches branch force ;;
  import_time_machine (fst bp) (snd bp) series tries.

(** ** The import action of [main] (pq.py, lines 373-398) *)

Definition main_tries (options : Options) : Z :=
  if (time_machine options >? 0)%Z then time_machine options else 1%Z.

(** The result is [retval]; an exception [main] does not catch leaves
    it. *)
Definition main_import (options : Options) : M Z :=
  fun w =>
    let current := get_branch w in
    let series := SERIES_FILE in
    let tries := main_tries options in
    match import_quilt_patches current series tries (force options) w with
    | (Ok _, w') => (Ok 0%Z, w')
    | (Raise CommandExecFailed, w') => (Ok 1%Z, w')
    | (Raise (GbpError _), w') => (Ok 1%Z, w')
    | (Raise e, w') => (Raise e, w')
    end.

End Repository.

(** ** Vocabulary of the properties *)

(** The three keys of a role and the entry a field gives rise to. *)
Definition role_keys (who : string) : string * string * string :=
  ("GIT_" ++ Py.upper who ++ "_NAME",
   "GIT_" ++ Py.upper who ++ "_EMAIL",
   "GIT_" ++ Py.upper who ++ "_DATE").

Definition entry (v : option string) : option string :=
  if truthy v then v else None.










(** *** Sample inputs *)

Definition two_topics_patch : string :=
  "From 0123abc Mon Sep 17 00:00:00 2001" ++ String Py.nl
  ("Subject: fix" ++ String Py.nl
  ("Gbp-Pq-Topic: foo" ++ String Py.nl
  ("body" ++ String Py.nl
  ("gbp-pq-topic: bar" ++ String Py.nl "")))).

Definition fix_bug_fs (content : string) : FS :=
  mkFS [("debian/patches/0001-fix-bug.patch", content)] [].

(** ** The time machine as the specification describes it

    The author a patch is committed with, the commit it produces, and
    for a candidate commit the patches the engine attempts there and the
    tip of the patch queue when the whole series applies. *)

Definition has_authorship (patch : Patch) : bool :=
  truthy (author patch) && truthy (email patch).

(** The author lookup of a patch does not raise. *)
Definition resolvable (control : option string) (patch : Patch) : bool :=
  has_authorship patch ||
  match get_maintainer_from_control control with
  | Ok _ => true
  | Raise _ => false
  end.

Definition author_of (control : option string) (patch : Patch) : Identity :=
  let own := mkIdentity (author patch) (email patch) (date patch) in
  if has_authorship patch then own
  else match get_maintainer_from_control control with
       | Ok (Some (String c n), email) =>
           mkIdentity (Some (String c n)) email (date patch)
       | _ => own
       end.

Definition commit_of (control : option string) (tip : commit) (patch : Patch)
  : commit :=
  Commit (commit_msg patch (topic patch)) (author_of control patch) tip.

Definition apply_events (tried : list Patch) : list Event :=
  map (fun p => EvApplyPatch (path p)) tried.

Section TimeMachineModel.

Variable patch_applies : commit -> Patch -> bool.
Variable control : option string.
Variables branch pq_branch : string.
Variable queue : list Patch.

(** The patches on which the apply primitive is called at a candidate,
    in series order, and the resulting tip when all of them apply. *)
Fixpoint attempt_series (tip : commit) (patches : list Patch)
  : list Patch * option commit :=
  match patches with
  | [] => ([], Some tip)
  | p :: rest =>
      if patch_applies tip p
      then let (tried, r) := attempt_series (commit_of control tip p) rest in
           (p :: tried, r)
      else ([p], None)
  end.

Definition series_applies (c : commit) : bool :=
  match snd (attempt_series c queue) with Some _ => true | None => false end.

Definition attempt_events (c : commit) : list Event :=
  EvCreateBranch pq_branch c :: EvSetBranch pq_branch ::
  apply_events (fst (attempt_series c queue)).

Definition rollback_events : list Event :=
  [EvSetBranch branch; EvDeleteBranch pq_branch].

Definition failed_attempt_events (c : commit) : list Event :=
  (attempt_events c ++ rollback_events)%list.

(** Candidates are tried in order; a failed attempt is rolled back; the
    first candidate at which the series applies ends the search. *)
Fixpoint time_machine_events (commits : list commit) : list Event :=
  match commits with
  | [] => []
  | c :: rest =>
      if series_applies c then attempt_events c
      else (failed_attempt_events c ++ time_machine_events rest)%list
  end.

Definition time_machine_result (commits : list commit)
  : option (commit * commit) :=
  match find series_applies commits with
  | Some c =>
      match snd (attempt_series c queue) with
      | Some tip => Some (c, tip)
      | None => None
      end
  | None => None
  end.

End TimeMachineModel.

(** The directory [safe_patches] creates. *)
Definition snapshot_dir (mkdtemp_suffix : string) : string :=
  Py.path_join ".git/" ("gbp-pq" ++ mkdtemp_suffix).


(** *** A sample repository *)

Definition sample_author : Identity :=
  mkIdentity (Some "Jane Doe") (Some "jane@example.org") None.
Definition sample_c0 : commit := Initial "initial import" sample_author.
Definition sample_c1 : commit := Commit "new upstream" sample_author sample_c0.
Definition sample_c2 : commit := Commit "newer upstream" sample_author sample_c1.

Definition sample_patch : Patch :=
  mkPatch "debian/patches/fix-bug.patch" (Some "Jane Doe")
          (Some "jane@example.org") None "fix bug" "" None.

Definition sample_world : World :=
  mkWorld [("master", sample_c2)] "master" None
          [(SERIES_FILE, [sample_patch])] [] [].

(** The patch applies to the tree of [sample_c0] only. *)
Definition applies_at_c0 (c : commit) (p : Patch) : bool :=
  match c with
  | Initial _ _ => true
  | _ => false
  end.

(** The sample repository with a patch-queue branch for [master], and
    the same with that branch checked out. *)
Definition sample_world_with_pq : World :=
  with_branches [("patch-queue/master", sample_c1); ("master", sample_c2)]
                sample_world.

Definition sample_world_on_pq : World :=
  with_head "patch-queue/master" sample_world_with_pq.

(** ** Vocabulary of the further properties *)

Definition starts_clean (s : string) : bool :=
  match s with
  | String c _ => negb (Py.is_space c)
  | EmptyString => false
  end.

Fixpoint last_char (s : string) : option ascii :=
  match s with
  | EmptyString => None
  | String c EmptyString => Some c
  | String _ s' => last_char s'
  end.

(** [s] is not empty and does not end in white space. *)
Definition ends_clean (s : string) : bool :=
  match last_char s with
  | Some c => negb (Py.is_space c)
  | None => false
  end.

Fixpoint contains (c : ascii) (s : string) : bool :=
  match s with
  | EmptyString => false
  | String d s' => Ascii.eqb d c || contains c s'
  end.

(** The maintainer pattern can match with the last character of the
    name at the head of [r]. *)
Definition name_ends_at (r : string) : bool :=
  match r with
  | String c rest =>
      negb (Ascii.eqb c " ") &&
      match skip_blanks rest with
      | String "<" r2 =>
          match before_last_gt r2 with Some _ => true | None => false end
      | _ => false
      end
  | EmptyString => false
  end.

(** No suffix of [r] lets the name end at its head. *)
Fixpoint no_name_end_in (r : string) : bool :=
  match r with
  | EmptyString => true
  | String _ r' => negb (name_ends_at r) && no_name_end_in r'
  end.

(** A [Maintainer:] line of [debian/control]. *)
Definition maintainer_line (name email : string) : string :=
  "Maintainer: " ++ name ++ " <" ++ email ++ ">" ++ String Py.nl "".

(** [s] is empty or ends with a newline. *)
Definition complete_lines (s : string) : bool :=
  match last_char s with
  | Some c => Ascii.eqb c Py.nl
  | None => true
  end.

(** The working tree of the import engine (control file, series files,
    snapshot directories) is the same in [w] and [w']. *)
Definition same_tree (w w' : World) : Prop :=
  control w' = control w /\ series_files w' = series_files w /\
  tmpdirs w' = tmpdirs w.

(** [n] steps along the first parents of [c]. *)
Fixpoint ancestor (n : nat) (c : commit) : option commit :=
  match n with
  | O => Some c
  | S n' =>
      match ancestor n' c with
      | Some a => first_parent a
      | None => None
      end
  end.

(** The commits of a series stacked on [base], oldest first. *)
Definition stack_series (control : option string) (base : commit)
  (queue : list Patch) : commit :=
  fold_left (commit_of control) queue base.



(** ** Single-patch apply, rebase (pq.py, lines 252-272 and 314-320) *)

Section Coordinators.

Variable patch_applies : commit -> Patch -> bool.
Variable branch_creatable : string -> bool.
(** The external command [git rebase <base>]. *)
Variable git_rebase : string -> M unit.

(** Modelled from the spec: [repo.create_branch(name)] of
    gbp.git.GitRepository with no start point, which creates the branch
    at the current HEAD. *)
Definition create_branch_at_head (b : string) : M unit :=
  fun w =>
    match lookup (head w) (branches w) with
    | Some tip => create_branch branch_creatable b tip w
    | None => (Raise CommandExecFailed, w)
    end.

Definition switch_to_pq_branch (branch : string) : M unit :=
  if is_pq_branch branch then ret tt
  else
    let pq_branch := fmt (pq_branch_name branch) in
    (fun w =>
       if negb (has_branch pq_branch w) then
         match create_branch_at_head pq_branch w with
         | (Raise CommandExecFailed, w1) =>
             (Raise (GbpError ("Cannot create patch-queue branch '"
                                 ++ pq_branch ++ "'. Try 'rebase' instead.")),
              w1)
         | r => r
         end
       else (Ok tt, w)) ;;;
    set_branch pq_branch.

Definition apply_single_patch (branch : string) (patch : Patch)
  (topic : option string) : M unit :=
  switch_to_pq_branch branch ;;;
  apply_and_commit_patch patch_applies patch topic.

Definition rebase_pq (branch : string) : M unit :=
  base <-
    (if is_pq_branch branch then ret (fmt (pq_branch_base branch))
     else switch_to_pq_branch branch ;;; ret branch) ;;
  git_rebase base.

End Coordinators.

(** *** Further sample inputs *)

Definition sample_unauthored_patch : Patch :=
  mkPatch "debian/patches/fix-typo.patch" None None (Some "2011-12-01")
          "fix typo" "" (Some "docs").

(** The sample repository with a [debian/control] naming a maintainer. *)
Definition sample_world_control : World :=
  mkWorld [("master", sample_c2)] "master"
          (Some (("Source: hello" ++ String Py.nl "")
                 ++ maintainer_line "Jane Doe" "jane@example.org"))
          [(SERIES_FILE, [sample_unauthored_patch])] [] [].

(** ** ExportEngine: [export_patches] (pq.py, lines 119-148)

    The export works on the repository and on the text files of the
    working tree. *)

Definition Tree : Type := (World * FS)%type.

(** [shutil.rmtree(dir)] on the text files; [dir] ends with a slash. *)
Definition fs_rmtree (fs : FS) (dir : string) : FS :=
  mkFS (filter (fun kv => negb (Py.startswith (fst kv) dir)) (fs_files fs))
       (filter (fun d => negb (Py.startswith d dir)) (fs_dirs fs)).

(** The file [git format-patch] writes for a commit: a numbered stem
    derived from the subject, with the suffix [.patch], in the output
    directory. *)
Definition patch_path (stem : string) : string :=
  PATCH_DIR ++ stem ++ ".patch".

Section ExportEngine.

(** Modelled from the spec: [repo.format_patches(branch, pq_branch,
    PATCH_DIR, signature=False)] of gbp.git.GitRepository, not part of
    these sources: one patch file per commit between the two branches,
    oldest first; here the stem and the content of each file. *)
Variable format_patches :
  World -> string -> string -> res (list (string * string)).
(** An [OSError] of [shutil.rmtree] other than [ENOENT]: its message
    and what is left of the tree. *)
Variable rmtree_oserror : FS -> option (string * FS).
(** Whether the external command [git status -- debian/patches/]
    succeeds. *)
Variable git_status : FS -> bool.

Definition fs_format_patches (fs : FS) (generated : list (string * string))
  : FS :=
  fold_left (fun fs sc => fs_write fs (patch_path (fst sc)) (snd sc))
            generated
            (if fs_isdir fs PATCH_DIR then fs else fs_makedirs fs PATCH_DIR).

(** Lines 141-143: the loop over the patches; [manifest] is the text
    written to the series file so far. *)
Fixpoint write_patches (patches : list string) (options : Options) (fs : FS)
  (manifest : string) : res unit * FS * string :=
  match patches with
  | [] => (Ok tt, fs, manifest)
  | patch :: rest =>
      match write_patch fs patch options with
      | (Ok filename, fs') =>
          write_patches rest options fs'
            (manifest ++ Py.drop (Py.len PATCH_DIR) filename
                      ++ String Py.nl "")
      | (Raise e, fs') => (Raise e, fs', manifest)
      end
  end.

Definition export_patches (branch : string) (options : Options) (t : Tree)
  : res unit * Tree :=
  let '(w, fs) := t in
  let '(branch, w) :=
    if is_pq_branch branch
    then let base := fmt (pq_branch_base branch) in
         (base, snd (set_branch base w))
    else (branch, w) in
  let pq_branch := fmt (pq_branch_name branch) in
  match rmtree_oserror fs with
  | Some (msg, fs') =>
      (Raise (GbpError ("Failed to remove patch dir: " ++ msg)), (w, fs'))
  | None =>
      let fs := fs_rmtree fs PATCH_DIR in
      match format_patches w branch pq_branch with
      | Raise e => (Raise e, (w, fs))
      | Ok generated =>
          let fs := fs_format_patches fs generated in
          let patches := map (fun sc => patch_path (fst sc)) generated in
          match patches with
          | [] => (Ok tt, (w, fs))
          | _ :: _ =>
              (* f = file(SERIES_FILE, 'w') ... f.close() *)
              let fs := fs_write fs SERIES_FILE "" in
              match write_patches patches options fs "" with
              | (Ok _, fs, manifest) =>
                  let fs := fs_write fs SERIES_FILE manifest in
                  if git_status fs then (Ok tt, (w, fs))
                  else (Raise CommandExecFailed, (w, fs))
              | (Raise e, fs, manifest) =>
                  (Raise e, (w, fs_write fs SERIES_FILE manifest))
              end
          end
      end
  end.

End ExportEngine.




(** *** Sample export *)

Definition sample_generated : list (string * string) :=
  [("0001-fix-bug", two_topics_patch);
   ("0002-fix-typo",
    "From 4567def Mon Sep 17 00:00:00 2001" ++ String Py.nl
      ("Subject: fix typo" ++ String Py.nl ""))].

Definition sample_export_fs : FS :=
  mkFS [("debian/patches/old.patch", "old");
        ("debian/patches/series", "old.patch" ++ String Py.nl "");
        ("debian/control", "Source: hello")]
       ["debian/patches/"].

(** * Part II: properties *)

(** ** Strings *)

Lemma prefix_app (p s : string) : String.prefix p (p ++ s) = true.
Proof.
  induction p as [|c p IH]; simpl.
  - now destruct s.
  - destruct (Ascii.ascii_dec c c) as [_|n]; [exact IH | now elim n].
Qed.

Lemma drop_app (p s : string) : Py.drop (String.length p) (p ++ s) = s.
Proof. induction p as [|c p IH]; simpl; auto. Qed.

Lemma prefix_split (p s : string) :
  String.prefix p s = true -> s = p ++ Py.drop (String.length p) s.
Proof.
  revert s; induction p as [|c p IH]; intros s H.
  - reflexivity.
  - destruct s as [|d s]; simpl in *; [discriminate|].
    destruct (Ascii.ascii_dec c d) as [e|]; [subst d|discriminate].
    f_equal. now apply IH.
Qed.

(** ** BranchNaming *)

Lemma is_pq_branch_startswith (b : string) :
  is_pq_branch b = Py.startswith b PQ_BRANCH_PREFIX.
Proof. unfold is_pq_branch. now destruct (Py.startswith b PQ_BRANCH_PREFIX). Qed.

Lemma is_pq_branch_prefixed (b : string) :
  is_pq_branch (PQ_BRANCH_PREFIX ++ b) = true.
Proof. rewrite is_pq_branch_startswith. apply prefix_app. Qed.

Example is_pq_branch_doctest :
  is_pq_branch "foo" = false /\ is_pq_branch "patch-queue/foo" = true.
Proof. split; reflexivity. Qed.

Example pq_branch_name_doctest :
  pq_branch_name "patch-queue/master" = None /\
  pq_branch_name "foo" = Some "patch-queue/foo".
Proof. split; reflexivity. Qed.

Example pq_branch_base_doctest :
  pq_branch_base "patch-queue/master" = Some "master" /\
  pq_branch_base "foo" = None.
Proof. split; reflexivity. Qed.

(** C3. For a branch name [b] that is not a patch-queue branch, the
    patch-queue name of [b] is a patch-queue branch whose base is [b]
    again: [pq_branch_base(pq_branch_name(b)) == b] and
    [is_pq_branch(pq_branch_name(b))]. *)
Theorem pq_branch_roundtrip (b : string) :
  is_pq_branch b = false ->
  exists n, pq_branch_name b = Some n /\
            pq_branch_base n = Some b /\
            is_pq_branch n = true.
Proof.
  intros Hb. exists (PQ_BRANCH_PREFIX ++ b).
  unfold pq_branch_name, pq_branch_base. rewrite Hb. simpl negb. cbv iota.
  rewrite is_pq_branch_prefixed. split; [reflexivity | split; [|reflexivity]].
  exact (f_equal Some (drop_app PQ_BRANCH_PREFIX b)).
Qed.

Lemma pq_branch_roundtrip_witness :
  is_pq_branch "master" = false /\
  exists n, pq_branch_name "master" = Some n /\
            pq_branch_base n = Some "master" /\
            is_pq_branch n = true.
Proof. split; [reflexivity | apply (pq_branch_roundtrip "master"); reflexivity]. Defined.

(** C4, as the code has it. On a name that is already a patch-queue
    branch [pq_branch_name] returns [None], not the name; on any other
    name it returns the prefix followed by the name. *)
Theorem pq_branch_name_cases (b : string) :
  (is_pq_branch b = true -> pq_branch_name b = None) /\
  (is_pq_branch b = false -> pq_branch_name b = Some (PQ_BRANCH_PREFIX ++ b)).
Proof. unfold pq_branch_name. split; intros ->; reflexivity. Qed.

Lemma pq_branch_name_cases_witness :
  (is_pq_branch "patch-queue/master" = true /\
   pq_branch_name "patch-queue/master" = None) /\
  (is_pq_branch "foo" = false /\
   pq_branch_name "foo" = Some (PQ_BRANCH_PREFIX ++ "foo")).
Proof.
  split; (split; [reflexivity|]).
  - apply (proj1 (pq_branch_name_cases "patch-queue/master")); reflexivity.
  - apply (proj2 (pq_branch_name_cases "foo")); reflexivity.
Defined.

(** C4 as stated fails: a patch-queue branch name is not returned
    unchanged. *)
Lemma pq_branch_name_not_identity :
  is_pq_branch "patch-queue/master" = true /\
  pq_branch_name "patch-queue/master" <> Some "patch-queue/master".
Proof. split; [reflexivity | discriminate]. Qed.

(** ** GitModifier *)

Lemma lower_upper_char (c : ascii) :
  Py.lower_char (Py.upper_char c) = Py.lower_char c.
Proof. destruct c as [[] [] [] [] [] [] [] []]; reflexivity. Qed.

Lemma upper_lower_char (c : ascii) :
  Py.upper_char (Py.lower_char c) = Py.upper_char c.
Proof. destruct c as [[] [] [] [] [] [] [] []]; reflexivity. Qed.

Lemma lower_upper (s : string) : Py.lower (Py.upper s) = Py.lower s.
Proof.
  unfold Py.lower, Py.upper in *.
  induction s as [|c s IH]; cbn [Py.map_chars]; [reflexivity|].
  now rewrite lower_upper_char, IH.
Qed.

Lemma upper_lower (s : string) : Py.upper (Py.lower s) = Py.upper s.
Proof.
  unfold Py.lower, Py.upper in *.
  induction s as [|c s IH]; cbn [Py.map_chars]; [reflexivity|].
  now rewrite upper_lower_char, IH.
Qed.

(** Comparing in upper case is comparing in lower case. *)
Lemma upper_eq_iff_lower_eq (s t : string) :
  Py.upper s = Py.upper t <-> Py.lower s = Py.lower t.
Proof.
  split; intros H.
  - rewrite <- (lower_upper s), <- (lower_upper t). now rewrite H.
  - rewrite <- (upper_lower s), <- (upper_lower t). now rewrite H.
Qed.

Lemma get_env_role (self : GitModifier) (who : string) :
  Py.upper who = "AUTHOR" \/ Py.upper who = "COMMITTER" ->
  _get_env self who =
  Ok (List.app
        (if truthy (gm_date self)
         then [("GIT_" ++ Py.upper who ++ "_DATE", fmt (gm_date self))] else [])
     (List.app
        (if truthy (gm_email self)
         then [("GIT_" ++ Py.upper who ++ "_EMAIL", fmt (gm_email self))] else [])
        (if truthy (gm_name self)
         then [("GIT_" ++ Py.upper who ++ "_NAME", fmt (gm_name self))] else []))).
Proof.
  unfold _get_env.
  intros [H|H]; rewrite H; simpl existsb; cbv iota; simpl negb; cbv iota;
    destruct (truthy (gm_name self)), (truthy (gm_email self)),
             (truthy (gm_date self)); reflexivity.
Qed.

(** C9, as the code has it.  [_get_env] accepts exactly the roles that
    read [author] or [committer] when lower-cased and raises
    [GitModifierError] for every other; for an accepted role the
    dictionary has no keys besides [GIT_<ROLE>_NAME], [GIT_<ROLE>_EMAIL]
    and [GIT_<ROLE>_DATE], and holds the name, the email and the date
    exactly when the field is a non-empty string: a field that is [None]
    or the empty string has no entry. *)
Theorem get_env_spec (self : GitModifier) (who : string) :
  (Py.lower who <> "author" -> Py.lower who <> "committer" ->
   _get_env self who = Raise (GitModifierError "Neither comitter nor author")) /\
  (Py.lower who = "author" \/ Py.lower who = "committer" ->
   exists env, _get_env self who = Ok env /\
     let '(kn, ke, kd) := role_keys who in
     lookup kn env = entry (gm_name self) /\
     lookup ke env = entry (gm_email self) /\
     lookup kd env = entry (gm_date self) /\
     forall k v, In (k, v) env -> k = kn \/ k = ke \/ k = kd).
Proof.
  split.
  - intros Ha Hc. unfold _get_env.
    assert (Hu1 : String.eqb (Py.upper who) "AUTHOR" = false).
    { apply String.eqb_neq. intros E. apply Ha.
      now apply (proj1 (upper_eq_iff_lower_eq who "AUTHOR")). }
    assert (Hu2 : String.eqb (Py.upper who) "COMMITTER" = false).
    { apply String.eqb_neq. intros E. apply Hc.
      now apply (proj1 (upper_eq_iff_lower_eq who "COMMITTER")). }
    simpl existsb. rewrite Hu1, Hu2. reflexivity.
  - intros H.
    assert (Hu : Py.upper who = "AUTHOR" \/ Py.upper who = "COMMITTER").
    { destruct H as [H|H]; [left|right].
      - now apply (proj2 (upper_eq_iff_lower_eq who "author")).
      - now apply (proj2 (upper_eq_iff_lower_eq who "committer")). }
    eexists. split; [apply (get_env_role self who Hu)|].
    unfold role_keys, entry.
    destruct self as [n e d]; simpl gm_name; simpl gm_email; simpl gm_date.
    destruct Hu as [Hu|Hu]; rewrite Hu;
      destruct n as [[|? ?]|], e as [[|? ?]|], d as [[|? ?]|];
      cbn -[In]; (repeat split; try reflexivity);
      intros k v Hin; cbn in Hin;
      repeat (destruct Hin as [Hin|Hin];
              [injection Hin as <- <-; auto|]); contradiction.
Qed.

Lemma get_env_spec_witness :
  (Py.lower "Author" = "author" \/ Py.lower "Author" = "committer") /\
  exists env, _get_env (mkGitModifier (Some "foo") (Some "bar") None) "Author"
              = Ok env /\
     let '(kn, ke, kd) := role_keys "Author" in
     lookup kn env = Some "foo" /\
     lookup ke env = Some "bar" /\
     lookup kd env = None /\
     forall k v, In (k, v) env -> k = kn \/ k = ke \/ k = kd.
Proof.
  split; [left; reflexivity|].
  apply (proj2 (get_env_spec (mkGitModifier (Some "foo") (Some "bar") None)
                  "Author")).
  left; reflexivity.
Defined.

(** C9 as stated fails: a modifier whose name is set to the empty string
    gets no [GIT_AUTHOR_NAME] entry. *)
Lemma get_env_empty_name_no_entry :
  let g := mkGitModifier (Some "") (Some "bar") None in
  gm_name g <> None /\
  exists env, _get_env g "author" = Ok env /\
              lookup "GIT_AUTHOR_NAME" env = None.
Proof.
  split; [discriminate|].
  eexists; split; reflexivity.
Qed.

Example get_author_env_doctest :
  get_author_env (mkGitModifier (Some "foo") (Some "bar") None)
  = Ok [("GIT_AUTHOR_EMAIL", "bar"); ("GIT_AUTHOR_NAME", "foo")].
Proof. reflexivity. Qed.

(** ** AuthorResolver *)

Lemma get_maintainer_no_output (control : option string) :
  sed_output control = [] ->
  get_maintainer_from_control control = Raise IndexError.
Proof. unfold get_maintainer_from_control. now intros ->. Qed.

Example get_maintainer_jane :
  get_maintainer_from_control
    (Some ("Source: foo" ++ String Py.nl
             ("Maintainer: Jane Doe <jane@example.org>" ++ String Py.nl "")))
  = Ok (Some "Jane Doe", Some "jane@example.org").
Proof. reflexivity. Qed.

Example get_maintainer_unparseable :
  get_maintainer_from_control
    (Some ("Maintainer: jane@example.org" ++ String Py.nl ""))
  = Ok (None, None).
Proof. reflexivity. Qed.

(** C7, where the code leaves the claim.  With no [Maintainer:] field
    in [debian/control], or with no such file, [sed] prints nothing and
    [readlines()[0]] raises [IndexError]: the function does not return
    the pair of absent values. *)
Theorem get_maintainer_missing_field_raises :
  get_maintainer_from_control
    (Some ("Source: foo" ++ String Py.nl ("Section: misc" ++ String Py.nl "")))
  = Raise IndexError /\
  get_maintainer_from_control None = Raise IndexError.
Proof. split; reflexivity. Qed.

(** ** PatchTransform *)

Lemma append_assoc (a b c : string) : (a ++ b) ++ c = a ++ (b ++ c).
Proof. induction a as [|x a IH]; simpl; [reflexivity | now rewrite IH]. Qed.

Lemma append_nil_r (a : string) : a ++ "" = a.
Proof. induction a as [|x a IH]; simpl; [reflexivity | now rewrite IH]. Qed.




Lemma no_newline_app (a b : string) :
  no_newline (a ++ b) = no_newline a && no_newline b.
Proof.
  induction a as [|c a IH]; simpl; [reflexivity|].
  now rewrite IH, andb_assoc.
Qed.




Example patch_re_match_example :
  patch_re_match "0001-fix-bug.patch" = Some "fix-bug.patch" /\
  patch_re_match "fix-bug.patch" = None.
Proof. split; reflexivity. Qed.

Lemma lookup_remove_ne {A : Type} (k k' : string) (m : list (string * A)) :
  k <> k' -> lookup k (remove k' m) = lookup k m.
Proof.
  intros Hne. induction m as [|[k0 v] m IH]; simpl; [reflexivity|].
  destruct (String.eqb k' k0) eqn:E1.
  - apply String.eqb_eq in E1. subst k0.
    destruct (String.eqb k k') eqn:E2; [apply String.eqb_eq in E2; contradiction|].
    exact IH.
  - simpl. now rewrite IH.
Qed.

Lemma lookup_remove_eq {A : Type} (k : string) (m : list (string * A)) :
  lookup k (remove k m) = None.
Proof.
  induction m as [|[k0 v] m IH]; simpl; [reflexivity|].
  destruct (String.eqb k k0) eqn:E; [exact IH|]. simpl. now rewrite E.
Qed.

Lemma lookup_cons_eq {A : Type} (k : string) (v : A) (m : list (string * A)) :
  lookup k ((k, v) :: m) = Some v.
Proof. simpl. now rewrite String.eqb_refl. Qed.

Lemma length_app (a b : string) :
  String.length (a ++ b) = String.length a + String.length b.
Proof. induction a as [|c a IH]; simpl; [reflexivity | now rewrite IH]. Qed.













Example write_patch_keeps_numbers :
  exists fs',
    write_patch (fix_bug_fs two_topics_patch)
      "debian/patches/0001-fix-bug.patch" (mkOptions true 1 false None)
    = (Ok "debian/patches/bar/0001-fix-bug.patch", fs').
Proof. eexists. reflexivity. Qed.

(** ** ImportEngine *)

Lemma remove_absent {A : Type} (k : string) (m : list (string * A)) :
  lookup k m = None -> remove k m = m.
Proof.
  induction m as [|[k0 v] m IH]; simpl; [reflexivity|].
  destruct (String.eqb k k0); [discriminate|]. intros H. now rewrite IH.
Qed.

Lemma app_assoc' {A : Type} (a b c : list A) :
  ((a ++ b) ++ c = a ++ (b ++ c))%list.
Proof. symmetry. apply app_assoc. Qed.

Section EngineProperties.

Variable patch_applies : commit -> Patch -> bool.
Variable branch_creatable : string -> bool.
Variable mkdtemp_suffix : string.
Variables branch pq_branch : string.

Lemma resolve_author_spec (w : World) (p : Patch) :
  resolvable (control w) p = true ->
  resolve_author p w = (Ok (author_of (control w) p), w).
Proof.
  unfold resolvable, resolve_author, author_of, has_authorship. intros Hres.
  destruct (truthy (author p) && truthy (email p)); simpl; [reflexivity|].
  simpl in Hres.
  destruct (get_maintainer_from_control (control w)) as [[name em]|e];
    [|discriminate].
  destruct name as [[|c n]|]; reflexivity.
Qed.

(** Author lookup, patch application and commit of one patch on the
    patch-queue branch. *)
Lemma apply_and_commit_step (w : World) (p : Patch) (tip : commit)
  (bs : list (string * commit)) :
  resolvable (control w) p = true ->
  head w = pq_branch ->
  branches w = (pq_branch, tip) :: bs ->
  lookup pq_branch bs = None ->
  apply_and_commit_patch patch_applies p (topic p) w =
  if patch_applies tip p
  then (Ok tt,
        mkWorld ((pq_branch, commit_of (control w) tip p) :: bs) pq_branch
                (control w) (series_files w) (tmpdirs w)
                (log w ++ [EvApplyPatch (path p)])%list)
  else (Raise CommandExecFailed,
        mkWorld (branches w) pq_branch (control w) (series_files w)
                (tmpdirs w) (log w ++ [EvApplyPatch (path p)])%list).
Proof.
  intros Hres Hhead Hbs Habs.
  unfold apply_and_commit_patch, bind, apply_patch, commit_on_head, ret.
  rewrite (resolve_author_spec w p Hres).
  unfold emit. cbn [head branches control series_files tmpdirs log].
  rewrite Hhead, Hbs. cbn [lookup]. rewrite String.eqb_refl.
  destruct (patch_applies tip p); [|reflexivity].
  unfold with_branches, commit_of.
  cbn [head branches control series_files tmpdirs log remove].
  rewrite String.eqb_refl, (remove_absent _ _ Habs). reflexivity.
Qed.

(** The inner loop on the patch-queue branch created at a candidate. *)
Lemma apply_queue_spec (patches : list Patch) :
  forall (w : World) (tip : commit) (bs : list (string * commit)),
  forallb (resolvable (control w)) patches = true ->
  head w = pq_branch ->
  branches w = (pq_branch, tip) :: bs ->
  lookup pq_branch bs = None ->
  apply_queue patch_applies branch pq_branch patches w =
  match attempt_series patch_applies (control w) tip patches with
  | (tried, Some t) =>
      (Ok AllApplied,
       mkWorld ((pq_branch, t) :: bs) pq_branch (control w) (series_files w)
               (tmpdirs w) (log w ++ apply_events tried)%list)
  | (tried, None) =>
      (Ok ApplyFailed,
       mkWorld bs branch (control w) (series_files w) (tmpdirs w)
               (log w ++ apply_events tried
                  ++ rollback_events branch pq_branch)%list)
  end.
Proof.
  induction patches as [|p rest IH]; intros w tip bs Hres Hhead Hbs Habs.
  - cbn [apply_queue attempt_series apply_events map]. unfold ret.
    rewrite app_nil_r. destruct w as [b h c s t l].
    cbn [head branches control series_files tmpdirs log] in *. now subst.
  - cbn [forallb] in Hres. apply andb_prop in Hres as [Hp Hrest].
    cbn [apply_queue attempt_series].
    rewrite (apply_and_commit_step w p tip bs Hp Hhead Hbs Habs).
    destruct (patch_applies tip p).
    + erewrite IH; [| exact Hrest | reflexivity | reflexivity | exact Habs].
      cbn [control series_files tmpdirs log].
      destruct (attempt_series patch_applies (control w)
                  (commit_of (control w) tip p) rest) as [tried [t|]];
        unfold apply_events; cbn [map]; rewrite app_assoc'; reflexivity.
    + cbn [caught]. unfold bind, set_branch, delete_branch, ret, emit,
        with_head, with_branches, rollback_events, apply_events.
      cbn [head branches control series_files tmpdirs log map remove].
      rewrite Hbs. cbn [remove]. rewrite String.eqb_refl, (remove_absent _ _ Habs).
      rewrite !app_assoc'. reflexivity.
Qed.

Lemma world_eta (w : World) :
  mkWorld (branches w) (head w) (control w) (series_files w) (tmpdirs w)
          (log w) = w.
Proof. now destruct w. Qed.

(** The outer loop, on a repository where the patch-queue branch can be
    created. *)
Lemma try_commits_spec (queue : list Patch) (commits : list commit) :
  forall w : World,
  forallb (resolvable (control w)) queue = true ->
  lookup pq_branch (branches w) = None ->
  branch_creatable pq_branch = true ->
  head w = branch ->
  try_commits patch_applies branch_creatable branch pq_branch queue commits w =
  (match time_machine_result patch_applies (control w) queue commits with
   | Some _ => Ok tt
   | None => Raise (GbpError "Couldn't apply patches")
   end,
   mkWorld
     (match time_machine_result patch_applies (control w) queue commits with
      | Some (_, t) => (pq_branch, t) :: branches w
      | None => branches w
      end)
     (match time_machine_result patch_applies (control w) queue commits with
      | Some _ => pq_branch
      | None => branch
      end)
     (control w) (series_files w) (tmpdirs w)
     (log w ++ time_machine_events patch_applies (control w) branch pq_branch
                 queue commits)%list).
Proof.
  induction commits as [|c rest IH]; intros w Hres Habs Hcreate Hhead.
  - cbn. unfold raise. rewrite app_nil_r, <- Hhead. now rewrite world_eta.
  - cbn [try_commits]. unfold bind at 1. unfold create_branch, has_branch, emit.
    cbn [head branches control series_files tmpdirs log].
    rewrite Habs, Hcreate. cbn [orb negb]. unfold with_branches.
    cbn [head branches control series_files tmpdirs log].
    unfold bind at 1. unfold set_branch at 1. unfold emit, with_head.
    cbn [head branches control series_files tmpdirs log].
    unfold bind at 1.
    erewrite apply_queue_spec; [| exact Hres | reflexivity | reflexivity | exact Habs].
    cbn [head branches control series_files tmpdirs log].
    unfold time_machine_result. cbn [find time_machine_events].
    unfold series_applies at 1 3 5 7, attempt_events.
    destruct (attempt_series patch_applies (control w) c queue)
      as [tried [t|]] eqn:E; cbn [fst snd].
    + unfold ret. rewrite E. cbn [snd]. rewrite !app_assoc'. reflexivity.
    + erewrite IH; [| exact Hres | exact Habs | exact Hcreate | reflexivity].
      cbn [head branches control series_files tmpdirs log].
      unfold time_machine_result, failed_attempt_events, attempt_events.
      rewrite E. cbn [fst]. rewrite !app_assoc'. reflexivity.
Qed.

(** A creation failure is fatal at once. *)
Lemma try_commits_create_fails (queue : list Patch) (c : commit)
  (rest : list commit) (w : World) :
  has_branch pq_branch w || negb (branch_creatable pq_branch) = true ->
  try_commits patch_applies branch_creatable branch pq_branch queue
              (c :: rest) w =
  (Raise (GbpError ("Cannot create patch-queue branch '" ++ pq_branch ++ "'.")),
   emit (EvCreateBranch pq_branch c) w).
Proof.
  intros H. cbn [try_commits]. unfold bind at 1.
  unfold create_branch. 
  replace (has_branch pq_branch (emit (EvCreateBranch pq_branch c) w))
    with (has_branch pq_branch w) by reflexivity.
  now rewrite H.
Qed.

End EngineProperties.

Lemma first_parent_walk_length (n : nat) (c : commit) :
  List.length (first_parent_walk n c) <= n.
Proof.
  revert c; induction n as [|n IH]; intros c; cbn; [lia|].
  destruct (first_parent c) as [p|]; cbn; [specialize (IH p) | ]; lia.
Qed.


Lemma get_commits_length (tries : Z) (w : World) :
  List.length (get_commits tries w) <= Z.to_nat tries.
Proof.
  unfold get_commits. destruct (lookup (head w) (branches w)); cbn; [|lia].
  apply first_parent_walk_length.
Qed.


(** With a positive bound the walk starts at the tip of the current
    branch. *)
Lemma get_commits_tip (tries : Z) (w : World) (tip : commit) :
  lookup (head w) (branches w) = Some tip ->
  (0 < tries)%Z ->
  exists rest, get_commits tries w = tip :: rest.
Proof.
  intros H Ht. unfold get_commits. rewrite H.
  destruct (Z.to_nat tries) as [|n] eqn:E; [lia|]. cbn. eauto.
Qed.



Section TimeMachineProperties.

Variable patch_applies : commit -> Patch -> bool.
Variable branch_creatable : string -> bool.
Variable mkdtemp_suffix : string.
Variables branch pq_branch : string.
Variable control : option string.
Variable queue : list Patch.


End TimeMachineProperties.

Section ImportProperties.

Variable patch_applies : commit -> Patch -> bool.
Variable branch_creatable : string -> bool.
Variable mkdtemp_suffix : string.

(** The time machine on the current branch, on a repository where the
    patch-queue branch is absent and can be created. *)
Lemma import_time_machine_spec (branch pq_branch series : string) (tries : Z)
  (queue : list Patch) (w : World) :
  head w = branch ->
  lookup pq_branch (branches w) = None ->
  branch_creatable pq_branch = true ->
  lookup series (series_files w) = Some queue ->
  forallb (resolvable (control w)) queue = true ->
  let commits := get_commits tries w in
  let found := time_machine_result patch_applies (control w) queue commits in
  let snap := Nat.ltb 1 (List.length commits) in
  let tmpdir := snapshot_dir mkdtemp_suffix in
  let series' := Py.path_join (Py.path_join tmpdir "patches")
                              (basename series) in
  import_time_machine patch_applies branch_creatable mkdtemp_suffix
                      branch pq_branch series tries w =
  (match found with
   | Some _ => Ok tt
   | None => Raise (GbpError "Couldn't apply patches")
   end,
   mkWorld
     (match found with
      | Some (_, t) => (pq_branch, t) :: branches w
      | None => branches w
      end)
     (match found with Some _ => pq_branch | None => branch end)
     (control w)
     (if snap
      then match found with
           | Some _ =>
               filter (fun kv => negb (Py.startswith (fst kv) (tmpdir ++ "/")))
                      ((series', queue) :: series_files w)
           | None => (series', queue) :: series_files w
           end
      else series_files w)
     (if snap
      then match found with
           | Some _ =>
               filter (fun d => negb (String.eqb d tmpdir)) (tmpdir :: tmpdirs w)
           | None => tmpdir :: tmpdirs w
           end
      else tmpdirs w)
     (log w ++ time_machine_events patch_applies (control w) branch pq_branch
                 queue commits)%list).
Proof.
  intros Hhead Habs Hcreate Hseries Hres commits found snap tmpdir series'.
  unfold import_time_machine. unfold bind at 1. fold commits.
  unfold bind at 1. fold snap. destruct snap eqn:Esnap.
  - unfold bind at 1. unfold safe_patches. rewrite Hseries.
    unfold ret at 1. cbn [fst snd]. fold tmpdir. fold series'.
    unfold bind at 1. unfold read_series_file at 1.
    cbn [series_files]. rewrite lookup_cons_eq.
    unfold bind at 1.
    erewrite try_commits_spec;
      [| exact Hres | exact Habs | exact Hcreate | exact Hhead].
    cbn [head branches control series_files tmpdirs log]. fold commits. fold found.
    destruct found as [[c t]|]; [|reflexivity].
    replace (truthy (Some tmpdir)) with true by reflexivity. cbv iota.
    reflexivity.
  - unfold ret at 1. unfold bind at 1. unfold read_series_file at 1.
    rewrite Hseries. unfold bind at 1.
    erewrite try_commits_spec;
      [| exact Hres | exact Habs | exact Hcreate | exact Hhead].
    fold commits. fold found.
    destruct found as [[c t]|]; reflexivity.
Qed.

(** The branch preconditions, when they pass: the patch-queue branch is
    absent afterwards and nothing but branches, current branch and log
    has changed. *)
Lemma import_branches_ok (branch : string) (force : bool) (w w1 : World)
  (b pq : string) :
  import_branches branch force w = (Ok (b, pq), w1) ->
  lookup pq (branches w1) = None /\
  control w1 = control w /\ series_files w1 = series_files w /\
  tmpdirs w1 = tmpdirs w /\
  (if is_pq_branch branch then head w1 = b else b = branch /\ head w1 = head w).
Proof.
  unfold import_branches, bind.
  destruct (is_pq_branch branch) eqn:Epq.
  - destruct force; [|discriminate]. unfold checkout, ret. cbn [fst snd].
    set (b0 := fmt (pq_branch_base branch)).
    set (p0 := fmt (pq_branch_name b0)).
    set (w0 := emit (EvCheckout b0) (with_head b0 w)).
    destruct (has_branch p0 w0) eqn:Eh.
    + unfold drop_pq. destruct (is_pq_branch b0) eqn:Eb0; [discriminate|].
      fold p0. rewrite Eh. unfold delete_branch.
      intros H; injection H as <- <- <-. cbn.
      rewrite lookup_remove_eq. now repeat split.
    + intros H; injection H as <- <- <-. unfold has_branch in Eh.
      destruct (lookup p0 (branches w0)); [discriminate|]. now repeat split.
  - unfold ret. cbn [fst snd]. set (p0 := fmt (pq_branch_name branch)).
    destruct (has_branch p0 w) eqn:Eh.
    + destruct force; [|discriminate]. unfold drop_pq. rewrite Epq.
      fold p0. rewrite Eh. unfold delete_branch.
      intros H; injection H as <- <- <-. cbn.
      rewrite lookup_remove_eq. now repeat split.
    + intros H; injection H as <- <- <-. unfold has_branch in Eh.
      destruct (lookup p0 (branches w)); [discriminate|]. now repeat split.
Qed.

End ImportProperties.


Section ImportTheorems.

Variable patch_applies : commit -> Patch -> bool.
Variable branch_creatable : string -> bool.
Variable mkdtemp_suffix : string.

Lemma import_time_machine_uncreatable (branch pq_branch series : string)
  (tries : Z) (queue : list Patch) (w : World) :
  branch_creatable pq_branch = false ->
  lookup series (series_files w) = Some queue ->
  exists w',
    import_time_machine patch_applies branch_creatable mkdtemp_suffix
                        branch pq_branch series tries w =
    (match get_commits tries w with
     | [] => Raise (GbpError "Couldn't apply patches")
     | c :: _ => Raise (GbpError ("Cannot create patch-queue branch '"
                                    ++ pq_branch ++ "'."))
     end, w') /\
    log w' = (log w ++ match get_commits tries w with
                       | [] => []
                       | c :: _ => [EvCreateBranch pq_branch c]
                       end)%list /\
    branches w' = branches w.
Proof.
  intros Hcreate Hseries.
  unfold import_time_machine. unfold bind at 1. unfold bind at 1.
  destruct (Nat.ltb 1 (List.length (get_commits tries w))) eqn:Esnap.
  - unfold bind at 1. unfold safe_patches. rewrite Hseries.
    unfold ret at 1. cbn [fst snd]. unfold bind at 1.
    unfold read_series_file at 1. cbn [series_files]. rewrite lookup_cons_eq.
    unfold bind at 1.
    destruct (get_commits tries w) as [|c rest]; [discriminate|].
    rewrite try_commits_create_fails by (rewrite Hcreate; apply orb_true_r).
    eexists. split; [reflexivity|]. now split.
  - unfold ret at 1. unfold bind at 1. unfold read_series_file at 1.
    rewrite Hseries. unfold bind at 1.
    destruct (get_commits tries w) as [|c rest].
    + cbn [try_commits]. unfold raise. eexists. split; [reflexivity|].
      now rewrite app_nil_r.
    + rewrite try_commits_create_fails by (rewrite Hcreate; apply orb_true_r).
      eexists. split; [reflexivity|]. now split.
Qed.


End ImportTheorems.


Section SnapshotTheorems.

Variable patch_applies : commit -> Patch -> bool.
Variable branch_creatable : string -> bool.
Variable mkdtemp_suffix : string.

(** C2, where the code leaves the claim.  When more than one candidate
    is enumerated a snapshot directory is created; it is gone when the
    import succeeds, but when no candidate applies the engine raises
    before it reaches the removal and the directory is left behind. *)
Theorem import_snapshot_cleanup (branch series : string) (tries : Z)
  (force : bool) (w w1 : World) (b pq : string) (queue : list Patch) :
  head w = branch ->
  import_branches branch force w = (Ok (b, pq), w1) ->
  lookup series (series_files w) = Some queue ->
  forallb (resolvable (control w)) queue = true ->
  branch_creatable pq = true ->
  1 < List.length (get_commits tries w1) ->
  let found := find (series_applies patch_applies (control w) queue)
                    (get_commits tries w1) in
  exists r w',
    import_quilt_patches patch_applies branch_creatable mkdtemp_suffix
                         branch series tries force w = (r, w') /\
    (found <> None ->
     r = Ok tt /\ ~ In (snapshot_dir mkdtemp_suffix) (tmpdirs w')) /\
    (found = None ->
     r = Raise (GbpError "Couldn't apply patches") /\
     In (snapshot_dir mkdtemp_suffix) (tmpdirs w')).
Proof.
  intros Hhead Hib Hser Hres Hcreate Hlen found.
  destruct (import_branches_ok branch force w w1 b pq Hib)
    as (Habs & Hc & Hs & Ht & Hcase).
  assert (Hhead1 : head w1 = b).
  { destruct (is_pq_branch branch); [exact Hcase|].
    destruct Hcase as [-> ->]. exact Hhead. }
  rewrite <- Hs in Hser. rewrite <- Hc in Hres.
  unfold import_quilt_patches. unfold bind at 1. rewrite Hib. cbn [fst snd].
  eexists; eexists. split.
  { apply (import_time_machine_spec patch_applies branch_creatable
             mkdtemp_suffix b pq series tries queue w1
             Hhead1 Habs Hcreate Hser Hres). }
  apply Nat.ltb_lt in Hlen. rewrite Hlen.
  unfold time_machine_result. rewrite Hc. fold found.
  destruct found as [c|] eqn:Efound.
  - split; [|discriminate]. intros _.
    apply find_some in Efound as [_ Hok]. unfold series_applies in Hok.
    destruct (snd (attempt_series patch_applies (control w) c queue));
      [|discriminate].
    split; [reflexivity|]. cbn [tmpdirs]. intros Hin.
    apply filter_In in Hin as [_ Hin]. now rewrite String.eqb_refl in Hin.
  - split; [intros H; now elim H|]. intros _. split; [reflexivity|].
    cbn [tmpdirs]. now left.
Qed.

End SnapshotTheorems.

Lemma import_snapshot_cleanup_witness :
  exists w',
    import_quilt_patches (fun _ _ => false) (fun _ => true) "XXXXXX"
                         "master" SERIES_FILE 2 false sample_world
    = (Raise (GbpError "Couldn't apply patches"), w') /\
    tmpdirs sample_world = [] /\
    In ".git/gbp-pqXXXXXX" (tmpdirs w').
Proof.
  destruct (import_snapshot_cleanup (fun _ _ => false) (fun _ => true) "XXXXXX"
              "master" SERIES_FILE 2 false sample_world sample_world
              "master" "patch-queue/master" [sample_patch]
              eq_refl eq_refl eq_refl eq_refl eq_refl
              (le_n 2))
    as (r & w' & Hrun & _ & Hleft).
  destruct (Hleft eq_refl) as [-> Hin].
  exists w'. split; [exact Hrun|]. split; [reflexivity | exact Hin].
Defined.

(** The failing input of C2, evaluated: two candidates, the patch
    applies at neither; the import raises and the snapshot directory
    stays. *)
Example import_exhaustion_leaves_snapshot :
  let '(r, w') :=
    import_quilt_patches (fun _ _ => false) (fun _ => true) "XXXXXX"
                         "master" SERIES_FILE 2 false sample_world in
  r = Raise (GbpError "Couldn't apply patches") /\
  tmpdirs w' = [".git/gbp-pqXXXXXX"] /\
  branches w' = branches sample_world.
Proof. vm_compute. repeat split. Qed.

Section PreconditionTheorems.

Variable patch_applies : commit -> Patch -> bool.
Variable branch_creatable : string -> bool.
Variable mkdtemp_suffix : string.

Lemma pq_branch_base_name (branch base : string) :
  pq_branch_base branch = Some base ->
  is_pq_branch base = false ->
  is_pq_branch branch = true /\
  branch = PQ_BRANCH_PREFIX ++ base /\
  pq_branch_name base = Some branch.
Proof.
  unfold pq_branch_base. destruct (is_pq_branch branch) eqn:E; [|discriminate].
  intros H Hb. injection H as <-. split; [reflexivity|].
  rewrite is_pq_branch_startswith in E.
  pose proof (prefix_split PQ_BRANCH_PREFIX branch E) as Hsplit.
  split; [exact Hsplit|]. unfold pq_branch_name. rewrite Hb. cbn [negb].
  f_equal. symmetry. exact Hsplit.
Qed.

(** C8.  Without [force], [import_quilt_patches] raises [GbpError] on a
    patch-queue branch, and raises the [already exists. Try 'rebase'
    instead.] error when the patch-queue branch of the current branch
    exists; in both cases nothing has been done.  With [force], on a
    patch-queue branch it first checks out the base branch and goes on
    with the base as the branch; and an existing patch-queue branch is
    deleted; then the time machine runs, on a repository without the
    patch-queue branch. *)
Theorem import_branch_preconditions (branch series : string) (tries : Z)
  (w : World) :
  let import := import_quilt_patches patch_applies branch_creatable
                                     mkdtemp_suffix branch series tries in
  let time_machine := import_time_machine patch_applies branch_creatable
                                          mkdtemp_suffix in
  (is_pq_branch branch = true -> import false w = (Raise (GbpError ""), w)) /\
  (is_pq_branch branch = false ->
   has_branch (PQ_BRANCH_PREFIX ++ branch) w = true ->
   import false w =
   (Raise (GbpError ("Patch queue branch '" ++ PQ_BRANCH_PREFIX ++ branch
                       ++ "'. already exists. Try 'rebase' instead.")), w)) /\
  (is_pq_branch branch = true ->
   exists r w' evs,
     import_branches branch true w = (r, w') /\
     log w' = (log w ++ EvCheckout (fmt (pq_branch_base branch)) :: evs)%list) /\
  (forall base,
     pq_branch_base branch = Some base -> is_pq_branch base = false ->
     exists w1,
       import_branches branch true w = (Ok (base, branch), w1) /\
       head w1 = base /\ has_branch branch w1 = false /\
       log w1 = (log w ++ EvCheckout base ::
                   if has_branch branch w then [EvDeleteBranch branch] else [])%list /\
       import true w = time_machine base branch series tries w1) /\
  (is_pq_branch branch = false ->
   has_branch (PQ_BRANCH_PREFIX ++ branch) w = true ->
   exists w1,
     import_branches branch true w
     = (Ok (branch, PQ_BRANCH_PREFIX ++ branch), w1) /\
     head w1 = head w /\ has_branch (PQ_BRANCH_PREFIX ++ branch) w1 = false /\
     log w1 = (log w ++ [EvDeleteBranch (PQ_BRANCH_PREFIX ++ branch)])%list /\
     import true w
     = time_machine branch (PQ_BRANCH_PREFIX ++ branch) series tries w1).
Proof.
  intros import time_machine. unfold import, time_machine.
  unfold import_quilt_patches, import_branches.
  split; [|split; [|split; [|split]]].
  - intros Hpq. unfold bind. now rewrite Hpq.
  - intros Hpq Hhas. unfold bind, ret, pq_branch_name.
    rewrite Hpq. cbn [negb fmt]. now rewrite Hhas.
  - intros Hpq. unfold bind, ret, checkout. rewrite Hpq. cbn [fst snd].
    set (b0 := fmt (pq_branch_base branch)).
    set (p0 := fmt (pq_branch_name b0)).
    set (w0 := emit (EvCheckout b0) (with_head b0 w)).
    destruct (has_branch p0 w0).
    + unfold drop_pq. destruct (is_pq_branch b0).
      * eexists; eexists; exists []. split; reflexivity.
      * fold p0. destruct (has_branch p0 w0).
        -- eexists; eexists; exists [EvDeleteBranch p0]. split; [reflexivity|].
           cbn. now rewrite app_assoc'.
        -- eexists; eexists; exists []. split; reflexivity.
    + eexists; eexists; exists []. split; reflexivity.
  - intros base Hbase Hnot.
    destruct (pq_branch_base_name branch base Hbase Hnot) as (Hpq & Hsplit & Hname).
    unfold bind, ret, checkout. rewrite Hpq, Hbase. cbn [fmt fst snd].
    rewrite Hname. cbn [fmt].
    replace (has_branch branch (emit (EvCheckout base) (with_head base w)))
      with (has_branch branch w) by reflexivity.
    destruct (has_branch branch w) eqn:Eh.
    + unfold drop_pq. rewrite Hnot, Hname. cbn [fmt].
      replace (has_branch branch (emit (EvCheckout base) (with_head base w)))
        with (has_branch branch w) by reflexivity.
      rewrite Eh. unfold delete_branch. eexists. split; [reflexivity|].
      cbn [fst snd]. repeat split.
      * unfold has_branch. cbn. now rewrite lookup_remove_eq.
      * cbn. now rewrite app_assoc'.
    + eexists. split; [reflexivity|]. cbn [fst snd]. repeat split. exact Eh.
  - intros Hpq Hhas. unfold bind, ret, pq_branch_name, drop_pq.
    rewrite Hpq. cbn [negb fmt]. rewrite Hhas.
    unfold pq_branch_name. rewrite Hpq. cbn [negb fmt]. rewrite Hhas.
    unfold delete_branch. eexists. split; [reflexivity|].
    cbn [fst snd]. repeat split.
    unfold has_branch. cbn. now rewrite lookup_remove_eq.
Qed.

(** C10.  The import action passes [time_machine] as [tries] when it is
    positive and 1 otherwise, so [tries] is at least 1; the enumeration
    then starts with the tip of the current branch, and the first
    repository call of the time machine is the creation of the
    patch-queue branch at that tip. *)
Theorem main_import_tries (options : Options) :
  main_tries options =
    (if (time_machine options >? 0)%Z then time_machine options else 1%Z) /\
  (1 <= main_tries options)%Z /\
  (forall w,
     main_import patch_applies branch_creatable mkdtemp_suffix options w =
     match import_quilt_patches patch_applies branch_creatable mkdtemp_suffix
             (head w) SERIES_FILE (main_tries options) (force options) w with
     | (Ok _, w') => (Ok 0%Z, w')
     | (Raise CommandExecFailed, w') => (Ok 1%Z, w')
     | (Raise (GbpError _), w') => (Ok 1%Z, w')
     | (Raise e, w') => (Raise e, w')
     end) /\
  (forall w tip,
     lookup (head w) (branches w) = Some tip ->
     exists rest, get_commits (main_tries options) w = tip :: rest) /\
  (forall w w1 b pq queue tip,
     import_branches (head w) (force options) w = (Ok (b, pq), w1) ->
     lookup SERIES_FILE (series_files w) = Some queue ->
     forallb (resolvable (control w)) queue = true ->
     lookup b (branches w1) = Some tip ->
     exists r w' evs,
       import_quilt_patches patch_applies branch_creatable mkdtemp_suffix
         (head w) SERIES_FILE (main_tries options) (force options) w = (r, w') /\
       log w' = (log w1 ++ EvCreateBranch pq tip :: evs)%list).
Proof.
  assert (Hpos : (1 <= main_tries options)%Z).
  { unfold main_tries. destruct (time_machine options >? 0)%Z eqn:E; [|lia].
    apply Z.gtb_lt in E. lia. }
  split; [reflexivity|]. split; [exact Hpos|]. split; [reflexivity|]. split.
  - intros w tip Htip. apply get_commits_tip; [exact Htip | lia].
  - intros w w1 b pq queue tip Hib Hser Hres Htip.
    destruct (import_branches_ok (head w) (force options) w w1 b pq Hib)
      as (Habs & Hc & Hs & Ht & Hcase).
    assert (Hhead1 : head w1 = b).
    { destruct (is_pq_branch (head w)); [exact Hcase|].
      destruct Hcase as [-> ->]. reflexivity. }
    rewrite <- Hs in Hser. rewrite <- Hc in Hres.
    assert (Hcs : exists rest, get_commits (main_tries options) w1 = tip :: rest).
    { apply get_commits_tip; [now rewrite Hhead1 | lia]. }
    destruct Hcs as [rest Hcs].
    unfold import_quilt_patches. unfold bind at 1. rewrite Hib. cbn [fst snd].
    destruct (branch_creatable pq) eqn:Ecreate.
    + pose proof (import_time_machine_spec patch_applies branch_creatable
                    mkdtemp_suffix b pq SERIES_FILE (main_tries options) queue w1
                    Hhead1 Habs Ecreate Hser Hres) as Hrun.
      cbv zeta in Hrun. rewrite Hcs in Hrun.
      cbn [time_machine_events] in Hrun.
      unfold failed_attempt_events, attempt_events in Hrun.
      destruct (series_applies patch_applies (control w1) queue tip);
        cbn [app] in Hrun;
        eexists; eexists; eexists; (split; [exact Hrun|]); reflexivity.
    + destruct (import_time_machine_uncreatable patch_applies branch_creatable
                  mkdtemp_suffix b pq SERIES_FILE (main_tries options) queue w1
                  Ecreate Hser) as (w' & Hrun & Hlog & _).
      rewrite Hcs in Hrun, Hlog.
      eexists; exists w'; exists []. split; [exact Hrun | exact Hlog].
Qed.

End PreconditionTheorems.

Lemma import_branch_preconditions_witness :
  (is_pq_branch "patch-queue/master" = true /\
   import_quilt_patches applies_at_c0 (fun _ => true) "XXXXXX"
     "patch-queue/master" SERIES_FILE 1 false sample_world_on_pq
   = (Raise (GbpError ""), sample_world_on_pq)) /\
  (has_branch "patch-queue/master" sample_world_with_pq = true /\
   import_quilt_patches applies_at_c0 (fun _ => true) "XXXXXX"
     "master" SERIES_FILE 1 false sample_world_with_pq
   = (Raise (GbpError "Patch queue branch 'patch-queue/master'. already exists. Try 'rebase' instead."),
      sample_world_with_pq)) /\
  (exists w1,
     import_branches "patch-queue/master" true sample_world_on_pq
     = (Ok ("master", "patch-queue/master"), w1) /\
     head w1 = "master" /\ has_branch "patch-queue/master" w1 = false) /\
  (exists w1,
     import_branches "master" true sample_world_with_pq
     = (Ok ("master", "patch-queue/master"), w1) /\
     has_branch "patch-queue/master" w1 = false).
Proof.
  pose proof (import_branch_preconditions applies_at_c0 (fun _ => true)
                "XXXXXX" "patch-queue/master" SERIES_FILE 1
                sample_world_on_pq) as Hon.
  pose proof (import_branch_preconditions applies_at_c0 (fun _ => true)
                "XXXXXX" "master" SERIES_FILE 1
                sample_world_with_pq) as Hwith.
  cbv zeta in Hon, Hwith.
  destruct Hon as (Hon1 & _ & _ & Hon4 & _).
  destruct Hwith as (_ & Hwith2 & _ & _ & Hwith5).
  split; [split; [reflexivity | exact (Hon1 eq_refl)]|].
  split; [split; [reflexivity | exact (Hwith2 eq_refl eq_refl)]|].
  split.
  - destruct (Hon4 "master" eq_refl eq_refl) as (w1 & H1 & H2 & H3 & _).
    exists w1. now repeat split.
  - destruct (Hwith5 eq_refl eq_refl) as (w1 & H1 & _ & H3 & _).
    exists w1. now split.
Defined.

Lemma main_import_tries_witness :
  main_tries (mkOptions false 0 false None) = 1%Z /\
  (exists rest, get_commits 1 sample_world = sample_c2 :: rest) /\
  (exists r w' evs,
     import_quilt_patches applies_at_c0 (fun _ => true) "XXXXXX"
       "master" SERIES_FILE 1 false sample_world = (r, w') /\
     log w' = EvCreateBranch "patch-queue/master" sample_c2 :: evs).
Proof.
  destruct (main_import_tries applies_at_c0 (fun _ => true) "XXXXXX"
              (mkOptions false 0 false None))
    as (Htries & _ & _ & Hfirst & Hattempt).
  split; [exact Htries|]. split.
  - exact (Hfirst sample_world sample_c2 eq_refl).
  - exact (Hattempt sample_world sample_world "master" "patch-queue/master"
             [sample_patch] sample_c2 eq_refl eq_refl eq_refl eq_refl).
Defined.

(** * Part III: further properties *)

(** ** BranchNaming *)

Lemma append_inj_l (p a b : string) : p ++ a = p ++ b -> a = b.
Proof.
  intros H. rewrite <- (drop_app p a), <- (drop_app p b). now rewrite H.
Qed.

(** X1.  [pq_branch_base] is defined exactly on the patch-queue branch
    names; where it is, the name is the prefix followed by the base, and
    a base without the prefix is mapped back to the name by
    [pq_branch_name]. *)
Theorem pq_branch_base_inverse (n : string) :
  (is_pq_branch n = false -> pq_branch_base n = None) /\
  (is_pq_branch n = true ->
   exists b, pq_branch_base n = Some b /\ n = PQ_BRANCH_PREFIX ++ b /\
             (is_pq_branch b = false -> pq_branch_name b = Some n)).
Proof.
  unfold pq_branch_base. split; intros H; rewrite H; [reflexivity|].
  eexists. split; [reflexivity|].
  rewrite is_pq_branch_startswith in H.
  pose proof (prefix_split PQ_BRANCH_PREFIX n H) as Hsplit.
  split; [exact Hsplit|]. intros Hb. unfold pq_branch_name.
  rewrite Hb. cbn [negb]. f_equal. symmetry. exact Hsplit.
Qed.

Lemma pq_branch_base_inverse_witness :
  is_pq_branch "patch-queue/debian/sid" = true /\
  exists b, pq_branch_base "patch-queue/debian/sid" = Some b /\
            "patch-queue/debian/sid" = PQ_BRANCH_PREFIX ++ b /\
            (is_pq_branch b = false ->
             pq_branch_name b = Some "patch-queue/debian/sid").
Proof.
  split; [reflexivity|].
  exact (proj2 (pq_branch_base_inverse "patch-queue/debian/sid") eq_refl).
Defined.

(** X2.  [pq_branch_name] is injective, its results are patch-queue
    branch names, and it cannot be applied twice: on its own result it
    returns [None], so a doubly prefixed name is never built. *)
Theorem pq_branch_name_injective (a n : string) :
  pq_branch_name a = Some n ->
  is_pq_branch n = true /\
  pq_branch_name n = None /\
  forall b, pq_branch_name b = Some n -> a = b.
Proof.
  unfold pq_branch_name. destruct (is_pq_branch a) eqn:Ea; [discriminate|].
  cbn [negb]. intros H.
  assert (Hn : n = PQ_BRANCH_PREFIX ++ a) by congruence.
  assert (Hpq : is_pq_branch n = true)
    by (rewrite Hn; apply is_pq_branch_prefixed).
  split; [exact Hpq|]. rewrite Hpq. split; [reflexivity|]. intros b.
  destruct (is_pq_branch b); [discriminate|]. cbn [negb]. intros Hb.
  assert (Hab : PQ_BRANCH_PREFIX ++ a = PQ_BRANCH_PREFIX ++ b) by congruence.
  exact (append_inj_l _ _ _ Hab).
Qed.

Lemma pq_branch_name_injective_witness :
  pq_branch_name "master" = Some "patch-queue/master" /\
  is_pq_branch "patch-queue/master" = true /\
  pq_branch_name "patch-queue/master" = None /\
  forall b, pq_branch_name b = Some "patch-queue/master" -> "master" = b.
Proof.
  split; [reflexivity|].
  exact (pq_branch_name_injective "master" "patch-queue/master" eq_refl).
Defined.

(** ** GitModifier *)

Lemma get_author_env_eq (g : GitModifier) :
  get_author_env g =
  Ok (List.app
        (if truthy (gm_date g) then [("GIT_AUTHOR_DATE", fmt (gm_date g))] else [])
     (List.app
        (if truthy (gm_email g) then [("GIT_AUTHOR_EMAIL", fmt (gm_email g))] else [])
        (if truthy (gm_name g) then [("GIT_AUTHOR_NAME", fmt (gm_name g))] else []))).
Proof.
  unfold get_author_env. rewrite get_env_role by (left; reflexivity).
  reflexivity.
Qed.

Lemma get_committer_env_eq (g : GitModifier) :
  get_committer_env g =
  Ok (List.app
        (if truthy (gm_date g) then [("GIT_COMMITTER_DATE", fmt (gm_date g))] else [])
     (List.app
        (if truthy (gm_email g) then [("GIT_COMMITTER_EMAIL", fmt (gm_email g))] else [])
        (if truthy (gm_name g) then [("GIT_COMMITTER_NAME", fmt (gm_name g))] else []))).
Proof.
  unfold get_committer_env. rewrite get_env_role by (right; reflexivity).
  reflexivity.
Qed.

(** X3.  [get_author_env] and [get_committer_env] never raise.  The two
    dictionaries have no key in common, at most three entries each, and
    carry the same values: name, email and date of the modifier under
    the author keys and under the committer keys. *)
Theorem modifier_envs_disjoint (g : GitModifier) :
  exists ea ec,
    get_author_env g = Ok ea /\ get_committer_env g = Ok ec /\
    List.length ea = List.length ec /\ List.length ea <= 3 /\
    (forall k, lookup k ea <> None -> lookup k ec = None) /\
    lookup "GIT_AUTHOR_NAME" ea = lookup "GIT_COMMITTER_NAME" ec /\
    lookup "GIT_AUTHOR_EMAIL" ea = lookup "GIT_COMMITTER_EMAIL" ec /\
    lookup "GIT_AUTHOR_DATE" ea = lookup "GIT_COMMITTER_DATE" ec.
Proof.
  rewrite get_author_env_eq, get_committer_env_eq.
  eexists; eexists. split; [reflexivity|]. split; [reflexivity|].
  destruct g as [n e d]. cbn [gm_name gm_email gm_date].
  destruct (truthy n), (truthy e), (truthy d); cbn [List.app List.length];
    (split; [reflexivity|]); (split; [lia|]);
    (split; [|repeat split; reflexivity]);
    intros k Hk; cbn [lookup] in Hk;
    repeat match type of Hk with
    | context [String.eqb k ?s] =>
        let E := fresh "E" in
        destruct (String.eqb k s) eqn:E;
        [apply String.eqb_eq in E; subst k; reflexivity|]
    end; now elim Hk.
Qed.

(** ** AuthorResolver *)

Lemma take_add (p r : string) (n : nat) :
  take (String.length p + n) (p ++ r) = p ++ take n r.
Proof.
  induction p as [|c p IH]; [reflexivity|].
  cbn [String.length Nat.add append take]. now rewrite IH.
Qed.

Lemma take_app (p r : string) : take (String.length p) (p ++ r) = p.
Proof.
  rewrite <- (Nat.add_0_r (String.length p)), take_add.
  destruct r; apply append_nil_r.
Qed.

Lemma take_S_app (p r : string) (c : ascii) :
  take (S (String.length p)) (p ++ String c r) = p ++ String c "".
Proof.
  rewrite <- Nat.add_1_r, take_add. cbn [take]. now destruct r.
Qed.

Lemma maintainer_at_app (p r : string) :
  maintainer_at (p ++ r) (String.length p) =
  if no_newline p then
    match r with
    | String c rest =>
        if Ascii.eqb c " " then None
        else match skip_blanks rest with
             | String "<" r2 =>
                 match before_last_gt r2 with
                 | Some email => Some (p ++ String c "", email)
                 | None => None
                 end
             | _ => None
             end
    | EmptyString => None
    end
  else None.
Proof.
  unfold maintainer_at. rewrite take_app, drop_app.
  destruct (no_newline p); [|reflexivity].
  destruct r as [|c rest]; [reflexivity|]. now rewrite take_S_app.
Qed.

Lemma maintainer_at_rejected (p r : string) :
  name_ends_at r = false -> maintainer_at (p ++ r) (String.length p) = None.
Proof.
  rewrite maintainer_at_app. unfold name_ends_at.
  destruct (no_newline p); [|reflexivity].
  destruct r as [|c rest]; [reflexivity|].
  destruct (Ascii.eqb c " "); [reflexivity|]. cbn [negb andb].
  destruct (skip_blanks rest) as [|d r2]; [reflexivity|].
  destruct d as [[] [] [] [] [] [] [] []]; try reflexivity.
  destruct (before_last_gt r2); [discriminate | reflexivity].
Qed.

Lemma append_cons_assoc (q r : string) (c : ascii) :
  (q ++ String c "") ++ r = q ++ String c r.
Proof. now rewrite append_assoc. Qed.

(** The search backs off over every position at which the name cannot
    end. *)
Lemma maintainer_search_descend (r : string) :
  forall (q : string) (c : ascii),
  no_name_end_in r = true ->
  maintainer_search (q ++ String c r) (String.length q + 1 + String.length r)
  = maintainer_search (q ++ String c r) (String.length q).
Proof.
  induction r as [|d r IH]; intros q c Hr.
  - cbn [String.length]. rewrite Nat.add_0_r, Nat.add_1_r.
    cbn [maintainer_search].
    rewrite <- (append_cons_assoc q "" c).
    replace (S (String.length q)) with (String.length (q ++ String c ""))
      by (rewrite length_app; cbn; lia).
    now rewrite (maintainer_at_rejected (q ++ String c "") "" eq_refl).
  - cbn [no_name_end_in] in Hr. apply andb_prop in Hr as [Hd Hr].
    apply negb_true_iff in Hd.
    rewrite <- (append_cons_assoc q (String d r) c).
    specialize (IH (q ++ String c "") d Hr).
    rewrite length_app in IH. cbn [String.length] in IH |- *.
    replace (String.length q + 1 + S (String.length r))
      with (String.length q + 1 + 1 + String.length r) by lia.
    rewrite IH. rewrite Nat.add_1_r. cbn [maintainer_search].
    replace (S (String.length q)) with (String.length (q ++ String c ""))
      by (rewrite length_app; cbn; lia).
    now rewrite (maintainer_at_rejected (q ++ String c "") (String d r) Hd).
Qed.

Lemma skip_blanks_contains (c : ascii) (s : string) :
  contains c s = false -> contains c (skip_blanks s) = false.
Proof.
  induction s as [|d s IH]; [reflexivity|]. intros H.
  cbn [contains] in H. apply orb_false_iff in H as [Hd Hs].
  cbn [skip_blanks].
  destruct d as [[] [] [] [] [] [] [] []];
    try (cbn [contains]; now rewrite Hd, Hs).
  exact (IH Hs).
Qed.

Lemma no_name_end_without_lt (s : string) :
  contains "<" s = false -> no_name_end_in s = true.
Proof.
  induction s as [|c s IH]; [reflexivity|]. intros H.
  cbn [contains] in H. apply orb_false_iff in H as [Hc Hs].
  cbn [no_name_end_in]. rewrite (IH Hs), andb_true_r.
  apply negb_true_iff. unfold name_ends_at.
  pose proof (skip_blanks_contains "<" s Hs) as Hk.
  destruct (skip_blanks s) as [|d r2]; [apply andb_false_r|].
  cbn [contains] in Hk. apply orb_false_iff in Hk as [Hd _].
  destruct d as [[] [] [] [] [] [] [] []];
    try apply andb_false_r. discriminate Hd.
Qed.

Lemma before_last_gt_email (email : string) :
  no_newline email = true -> before_last_gt (email ++ ">") = Some email.
Proof.
  induction email as [|c e IH]; [reflexivity|]. intros H.
  cbn [no_newline] in H. apply andb_prop in H as [Hc He].
  apply negb_true_iff in Hc. cbn [append before_last_gt].
  now rewrite Hc, (IH He).
Qed.

Lemma contains_app (c : ascii) (a b : string) :
  contains c (a ++ b) = contains c a || contains c b.
Proof.
  induction a as [|d a IH]; [reflexivity|]. cbn. now rewrite IH, orb_assoc.
Qed.

Lemma last_char_split (s : string) (c : ascii) :
  last_char s = Some c -> exists q, s = q ++ String c "".
Proof.
  induction s as [|d s IH]; [discriminate|]. cbn [last_char].
  destruct s as [|e s].
  - intros H; injection H as ->. now exists "".
  - intros H. destruct (IH H) as [q Hq]. exists (String d q).
    cbn. now rewrite <- Hq.
Qed.

Lemma maintainer_search_found (s : string) (k : nat) (x : string * string) :
  maintainer_at s k = Some x -> maintainer_search s k = Some x.
Proof. intros H. destruct k; cbn [maintainer_search]; now rewrite H. Qed.

Lemma not_space_not_blank (c : ascii) :
  Py.is_space c = false -> Ascii.eqb c " " = false.
Proof.
  intros H. destruct (Ascii.eqb c " ") eqn:E; [|reflexivity].
  apply Ascii.eqb_eq in E. subst c. discriminate H.
Qed.

(** The pattern on a well-formed maintainer value. *)
Lemma maintainer_re_match_ok (name email : string) :
  ends_clean name = true -> no_newline name = true ->
  no_newline email = true -> contains "<" email = false ->
  maintainer_re_match (name ++ " <" ++ email ++ ">") = Some (name, email).
Proof.
  unfold ends_clean. destruct (last_char name) as [c|] eqn:El; [|discriminate].
  intros Hc Hn He Hlt. apply negb_true_iff in Hc.
  apply not_space_not_blank in Hc.
  destruct (last_char_split name c El) as [q ->].
  rewrite no_newline_app in Hn. apply andb_prop in Hn as [Hq _].
  assert (Hem : contains "<" (email ++ ">") = false)
    by (rewrite contains_app, Hlt; reflexivity).
  unfold maintainer_re_match.
  change (" <" ++ email ++ ">") with (String " " (String "<" (email ++ ">"))).
  set (r := String " " (String "<" (email ++ ">"))).
  rewrite append_cons_assoc.
  replace (String.length (q ++ String c r))
    with (String.length q + 1 + String.length r)
    by (rewrite length_app; cbn [String.length]; lia).
  rewrite maintainer_search_descend.
  - apply maintainer_search_found. rewrite maintainer_at_app, Hq, Hc.
    subst r. cbn [skip_blanks]. now rewrite (before_last_gt_email email He).
  - subst r. cbn [no_name_end_in]. rewrite (no_name_end_without_lt _ Hem).
    unfold name_ends_at at 1. cbn [Ascii.eqb Bool.eqb negb andb].
    unfold name_ends_at.
    pose proof (skip_blanks_contains "<" _ Hem) as Hk.
    destruct (skip_blanks (email ++ ">")) as [|d r2]; [reflexivity|].
    cbn [contains] in Hk. apply orb_false_iff in Hk as [Hd _].
    destruct d as [[] [] [] [] [] [] [] []]; try reflexivity.
    discriminate Hd.
Qed.

Lemma lines_from_app (a : string) :
  forall cur b : string,
  a <> "" -> complete_lines a = true ->
  Py.lines_from cur (a ++ b) = (Py.lines_from cur a ++ Py.lines_from "" b)%list.
Proof.
  unfold complete_lines.
  induction a as [|c a IH]; intros cur b Hne Hc; [now elim Hne|].
  cbn [append Py.lines_from]. destruct a as [|d a'].
  - cbn [last_char] in Hc. rewrite Hc. reflexivity.
  - cbn [last_char] in Hc. destruct (Ascii.eqb c Py.nl).
    + cbn [app]. f_equal. apply IH; [discriminate | exact Hc].
    + apply IH; [discriminate | exact Hc].
Qed.

Lemma file_lines_app (a b : string) :
  complete_lines a = true ->
  Py.file_lines (a ++ b) = (Py.file_lines a ++ Py.file_lines b)%list.
Proof.
  intros Hc. unfold Py.file_lines. destruct a as [|c a]; [reflexivity|].
  apply lines_from_app; [discriminate | exact Hc].
Qed.

Lemma lines_from_line (l : string) :
  forall cur rest : string,
  no_newline l = true ->
  Py.lines_from cur (l ++ String Py.nl rest)
  = (cur ++ l ++ String Py.nl "") :: Py.lines_from "" rest.
Proof.
  induction l as [|c l IH]; intros cur rest H.
  - cbn [append Py.lines_from]. now rewrite Ascii.eqb_refl.
  - cbn [no_newline] in H. apply andb_prop in H as [Hc Hl].
    apply negb_true_iff in Hc. cbn [append Py.lines_from]. rewrite Hc.
    rewrite (IH _ rest Hl). now rewrite append_cons_assoc.
Qed.

Lemma dot_star_line (l rest : string) :
  no_newline l = true -> dot_star (l ++ String Py.nl rest) = l.
Proof.
  induction l as [|c l IH]; intros H.
  - cbn [append dot_star]. now rewrite Ascii.eqb_refl.
  - cbn [no_newline] in H. apply andb_prop in H as [Hc Hl].
    apply negb_true_iff in Hc. cbn [append dot_star]. now rewrite Hc, (IH Hl).
Qed.

Lemma find_sub_unfold (pat s : string) :
  find_sub pat s =
  if String.prefix pat s then Some ("", Py.drop (String.length pat) s)
  else match s with
       | EmptyString => None
       | String c s' =>
           match find_sub pat s' with
           | Some (a, b) => Some (String c a, b)
           | None => None
           end
       end.
Proof. destruct s; reflexivity. Qed.

Lemma find_sub_prefix (pat x : string) :
  find_sub pat (pat ++ x) = Some ("", x).
Proof. now rewrite find_sub_unfold, prefix_app, drop_app. Qed.

Lemma skip_blanks_clean (x : string) :
  starts_clean x = true -> skip_blanks x = x.
Proof.
  destruct x as [|c x]; [discriminate|]. cbn [starts_clean]. intros H.
  apply negb_true_iff, not_space_not_blank in H.
  destruct c as [[] [] [] [] [] [] [] []]; try reflexivity. discriminate H.
Qed.

Lemma lstrip_clean (x : string) : starts_clean x = true -> Py.lstrip x = x.
Proof.
  destruct x as [|c x]; [discriminate|]. cbn [starts_clean Py.lstrip].
  intros H. apply negb_true_iff in H. now rewrite H.
Qed.

Lemma rstrip_unfold (c : ascii) (s : string) :
  Py.rstrip (String c s) =
  match Py.rstrip s with
  | EmptyString => if Py.is_space c then EmptyString else String c EmptyString
  | r => String c r
  end.
Proof. reflexivity. Qed.

Lemma rstrip_space (x : string) (c : ascii) :
  Py.is_space c = true -> Py.rstrip (x ++ String c "") = Py.rstrip x.
Proof.
  intros Hc. induction x as [|a x IH].
  - cbn [append]. rewrite rstrip_unfold. cbn [Py.rstrip]. now rewrite Hc.
  - cbn [append]. now rewrite !rstrip_unfold, IH.
Qed.

Lemma rstrip_clean (x : string) : ends_clean x = true -> Py.rstrip x = x.
Proof.
  unfold ends_clean. induction x as [|a x IH]; [discriminate|].
  rewrite rstrip_unfold. destruct x as [|b x'].
  - cbn [last_char Py.rstrip]. intros H. apply negb_true_iff in H.
    now rewrite H.
  - cbn [last_char]. intros H. rewrite (IH H). reflexivity.
Qed.

Lemma strip_line (x : string) :
  starts_clean x = true -> ends_clean x = true ->
  Py.strip (x ++ String Py.nl "") = x.
Proof.
  intros Hs He. unfold Py.strip. rewrite lstrip_clean.
  - rewrite rstrip_space by reflexivity. now apply rstrip_clean.
  - destruct x; [discriminate | exact Hs].
Qed.

Lemma last_char_app (x : string) (c : ascii) :
  last_char (x ++ String c "") = Some c.
Proof.
  induction x as [|a x IH]; [reflexivity|]. cbn [append last_char].
  rewrite IH. now destruct (x ++ String c "") eqn:E; [destruct x; discriminate|].
Qed.

Lemma starts_clean_app (x y : string) :
  starts_clean x = true -> starts_clean (x ++ y) = true.
Proof. destruct x; [discriminate | trivial]. Qed.

Lemma filter_map_app {A B : Type} (f : A -> option B) (l1 l2 : list A) :
  filter_map f (l1 ++ l2) = (filter_map f l1 ++ filter_map f l2)%list.
Proof.
  induction l1 as [|x l1 IH]; [reflexivity|]. cbn [app filter_map].
  destruct (f x); cbn [app]; now rewrite IH.
Qed.

(** X4.  A [debian/control] whose first [Maintainer:] line reads
    [Maintainer: Name <email>] yields the pair of that name and that
    email, whatever lines precede it (as long as they carry no
    [Maintainer: ]) and whatever follows it.  The name is any text free
    of newlines that neither starts nor ends with white space, the email
    any text free of newlines and of [<]. *)
Theorem get_maintainer_parses (before name email rest : string) :
  complete_lines before = true ->
  sed_output (Some before) = [] ->
  starts_clean name = true -> ends_clean name = true ->
  no_newline name = true ->
  no_newline email = true -> contains "<" email = false ->
  get_maintainer_from_control
    (Some (before ++ maintainer_line name email ++ rest))
  = Ok (Some name, Some email).
Proof.
  intros Hb Hsed Hs He Hn Hen Hlt.
  set (value := name ++ " <" ++ email ++ ">").
  assert (Hv : no_newline value = true).
  { unfold value. rewrite !no_newline_app, Hn, Hen. reflexivity. }
  assert (Hline : maintainer_line name email ++ rest
                  = ("Maintainer: " ++ value) ++ String Py.nl rest).
  { unfold maintainer_line, value. now rewrite !append_assoc. }
  unfold get_maintainer_from_control, sed_output in *.
  rewrite (file_lines_app _ _ Hb), filter_map_app, Hsed. cbn [app].
  rewrite Hline. unfold Py.file_lines.
  rewrite lines_from_line by (rewrite no_newline_app, Hv; reflexivity).
  cbn [filter_map]. unfold sed_maintainer at 1.
  change ("" ++ ("Maintainer: " ++ value) ++ String Py.nl "")
    with (("Maintainer: " ++ value) ++ String Py.nl "").
  rewrite dot_star_line by (rewrite no_newline_app, Hv; reflexivity).
  rewrite find_sub_prefix.
  assert (Hsv : starts_clean value = true) by (now apply starts_clean_app).
  rewrite (skip_blanks_clean value Hsv).
  change ("" ++ value ++ String Py.nl "") with (value ++ String Py.nl "").
  assert (Hev : ends_clean value = true).
  { unfold ends_clean, value.
    replace (name ++ " <" ++ email ++ ">")
      with ((name ++ " <" ++ email) ++ String ">" "")
      by (now rewrite !append_assoc).
    now rewrite last_char_app. }
  rewrite (strip_line value Hsv Hev). unfold value.
  now rewrite (maintainer_re_match_ok name email He Hn Hen Hlt).
Qed.

Lemma get_maintainer_parses_witness :
  get_maintainer_from_control
    (Some (("Source: hello" ++ String Py.nl "")
           ++ maintainer_line "Jane Doe" "jane@example.org"
           ++ ("Build-Depends: debhelper" ++ String Py.nl "")))
  = Ok (Some "Jane Doe", Some "jane@example.org").
Proof.
  apply (get_maintainer_parses ("Source: hello" ++ String Py.nl "")
           "Jane Doe" "jane@example.org"
           ("Build-Depends: debhelper" ++ String Py.nl ""));
    reflexivity.
Defined.

Lemma take_S_drop (k : nat) :
  forall (s rest : string) (c : ascii),
  Py.drop k s = String c rest -> take (S k) s = take k s ++ String c "".
Proof.
  induction k as [|k IH]; intros s rest c H.
  - cbn [Py.drop] in H. subst s. cbn [take]. now destruct rest.
  - destruct s as [|d s]; [discriminate|]. cbn [Py.drop] in H.
    cbn [take append]. f_equal. exact (IH s rest c H).
Qed.

Lemma before_last_gt_no_newline (r e : string) :
  before_last_gt r = Some e -> no_newline e = true.
Proof.
  revert e; induction r as [|c r IH]; intros e; [discriminate|].
  cbn [before_last_gt]. destruct (Ascii.eqb c Py.nl) eqn:Ec; [discriminate|].
  destruct (before_last_gt r) as [e'|].
  - intros H; injection H as <-. cbn [no_newline]. now rewrite Ec, (IH e').
  - destruct (Ascii.eqb c ">"); [|discriminate].
    intros H; injection H as <-. reflexivity.
Qed.

Lemma maintainer_at_shape (s : string) (k : nat) (n e : string) :
  maintainer_at s k = Some (n, e) ->
  (exists c, last_char n = Some c /\ c <> " "%char) /\ no_newline e = true.
Proof.
  unfold maintainer_at. destruct (no_newline (take k s)); [|discriminate].
  destruct (Py.drop k s) as [|c rest] eqn:Ed; [discriminate|].
  destruct (Ascii.eqb c " ") eqn:Ec; [discriminate|].
  destruct (skip_blanks rest) as [|d r]; [discriminate|].
  destruct d as [[] [] [] [] [] [] [] []]; try discriminate.
  destruct (before_last_gt r) as [email|] eqn:Eg; [|discriminate].
  intros H.
  assert (Hn : n = take (S k) s) by congruence.
  assert (He : e = email) by congruence.
  subst n e. split.
  - exists c. rewrite (take_S_drop k s rest c Ed), last_char_app.
    split; [reflexivity|]. now apply Ascii.eqb_neq.
  - exact (before_last_gt_no_newline r email Eg).
Qed.

Lemma maintainer_search_shape (s : string) (k : nat) (n e : string) :
  maintainer_search s k = Some (n, e) ->
  (exists c, last_char n = Some c /\ c <> " "%char) /\ no_newline e = true.
Proof.
  induction k as [|k IH]; cbn [maintainer_search];
    destruct (maintainer_at s _) as [[n' e']|] eqn:E; try discriminate;
    try (intros H; injection H as <- <-; exact (maintainer_at_shape _ _ _ _ E)).
  exact IH.
Qed.

(** X5.  [get_maintainer_from_control] has three outcomes only: it
    raises [IndexError], exactly when [sed] printed no line; it returns
    the pair of [None]s; or it returns a name together with an email,
    and then the name is not empty and does not end in a blank, and the
    email holds no newline.  A name without an email never comes
    back. *)
Theorem get_maintainer_outcomes (control : option string) :
  (get_maintainer_from_control control = Raise IndexError /\
   sed_output control = []) \/
  (sed_output control <> [] /\
   (get_maintainer_from_control control = Ok (None, None) \/
    exists n e c,
      get_maintainer_from_control control = Ok (Some n, Some e) /\
      truthy (Some n) = true /\
      last_char n = Some c /\ c <> " "%char /\ no_newline e = true)).
Proof.
  unfold get_maintainer_from_control.
  destruct (sed_output control) as [|first others]; [now left|].
  right. split; [discriminate|].
  destruct (maintainer_re_match (Py.strip first)) as [[n e]|] eqn:E;
    [|now left].
  right. destruct (maintainer_search_shape _ _ _ _ E) as [(c & Hl & Hc) He].
  exists n, e, c. split; [reflexivity|]. split; [|now repeat split].
  destruct n; [discriminate Hl | reflexivity].
Qed.

(** ** Drop, switch and single-patch apply *)

Lemma lookup_remove (k k' : string) (m : list (string * commit)) :
  lookup k (remove k' m) = if String.eqb k k' then None else lookup k m.
Proof.
  destruct (String.eqb k k') eqn:E.
  - apply String.eqb_eq in E. subst k'. apply lookup_remove_eq.
  - apply lookup_remove_ne. now apply String.eqb_neq.
Qed.

(** X6.  [drop_pq] on a patch-queue branch raises [GbpError] and
    changes nothing.  On any other branch it returns; afterwards the
    patch-queue branch of that branch does not exist, every other branch
    is where it was, and the current branch is still current; when there
    was no patch-queue branch nothing at all has changed. *)
Theorem drop_pq_spec (branch : string) (w : World) :
  (is_pq_branch branch = true -> drop_pq branch w = (Raise (GbpError ""), w)) /\
  (is_pq_branch branch = false ->
   exists w',
     drop_pq branch w = (Ok tt, w') /\
     has_branch (PQ_BRANCH_PREFIX ++ branch) w' = false /\
     (forall b, b <> PQ_BRANCH_PREFIX ++ branch ->
                lookup b (branches w') = lookup b (branches w)) /\
     head w' = head w /\
     (has_branch (PQ_BRANCH_PREFIX ++ branch) w = false -> w' = w)).
Proof.
  unfold drop_pq, pq_branch_name. split; intros Hpq; rewrite Hpq.
  - reflexivity.
  - cbn [negb fmt]. destruct (has_branch (PQ_BRANCH_PREFIX ++ branch) w) eqn:Eh.
    + eexists. split; [reflexivity|]. unfold has_branch. cbn.
      rewrite lookup_remove_eq. split; [reflexivity|]. split; [|now split].
      intros b Hb. now apply lookup_remove_ne.
    + exists w. now repeat split.
Qed.

Lemma drop_pq_spec_witness :
  is_pq_branch "master" = false /\
  exists w',
    drop_pq "master" sample_world_with_pq = (Ok tt, w') /\
    has_branch "patch-queue/master" w' = false /\
    lookup "master" (branches w') = Some sample_c2.
Proof.
  split; [reflexivity|].
  destruct (proj2 (drop_pq_spec "master" sample_world_with_pq) eq_refl)
    as (w' & Hrun & Hgone & Hkeep & _).
  exists w'. split; [exact Hrun|]. split; [exact Hgone|].
  rewrite Hkeep; [reflexivity | discriminate].
Defined.

Section CoordinatorProperties.

Variable patch_applies : commit -> Patch -> bool.
Variable branch_creatable : string -> bool.

Lemma get_maintainer_raises_index_error (control : option string) (e : exn) :
  get_maintainer_from_control control = Raise e -> e = IndexError.
Proof.
  unfold get_maintainer_from_control.
  destruct (sed_output control); [congruence|].
  destruct (maintainer_re_match _) as [[n em]|]; discriminate.
Qed.

Lemma get_maintainer_name_truthy (control : option string) (n : string)
  (e : option string) :
  get_maintainer_from_control control = Ok (Some n, e) ->
  exists c n', n = String c n'.
Proof.
  unfold get_maintainer_from_control.
  destruct (sed_output control); [discriminate|].
  destruct (maintainer_re_match _) as [[n0 e0]|] eqn:E; [|discriminate].
  intros H. assert (n0 = n) by congruence. subst n0.
  destruct (maintainer_search_shape _ _ _ _ E) as [(c & Hl & _) _].
  destruct n as [|c0 n']; [discriminate Hl | eauto].
Qed.

(** One patch on the current branch, whatever the branch table looks
    like. *)
Lemma apply_and_commit_general (w : World) (p : Patch) (t : option string)
  (tip : commit) :
  resolvable (control w) p = true ->
  lookup (head w) (branches w) = Some tip ->
  apply_and_commit_patch patch_applies p t w =
  if patch_applies tip p
  then (Ok tt,
        mkWorld ((head w, Commit (commit_msg p t) (author_of (control w) p) tip)
                   :: remove (head w) (branches w))
                (head w) (control w) (series_files w) (tmpdirs w)
                (log w ++ [EvApplyPatch (path p)])%list)
  else (Raise CommandExecFailed,
        mkWorld (branches w) (head w) (control w) (series_files w)
                (tmpdirs w) (log w ++ [EvApplyPatch (path p)])%list).
Proof.
  intros Hres Htip.
  unfold apply_and_commit_patch, bind, apply_patch, commit_on_head.
  rewrite (resolve_author_spec w p Hres). unfold emit.
  cbn [head branches control series_files tmpdirs log].
  rewrite Htip. destruct (patch_applies tip p); reflexivity.
Qed.

Lemma apply_and_commit_unresolvable (w : World) (p : Patch)
  (t : option string) :
  resolvable (control w) p = false ->
  apply_and_commit_patch patch_applies p t w = (Raise IndexError, w).
Proof.
  unfold resolvable, has_authorship. intros H.
  apply orb_false_iff in H as [Ha Hm].
  unfold apply_and_commit_patch, bind, resolve_author. rewrite Ha. cbn [negb].
  destruct (get_maintainer_from_control (control w)) as [[n e]|e] eqn:E;
    [discriminate|].
  now rewrite (get_maintainer_raises_index_error _ _ E).
Qed.

(** X7.  The author of the commit [apply_and_commit_patch] makes.  A
    patch with both author and email is committed under them and
    [debian/control] is not consulted.  A patch lacking one of them is
    committed under the maintainer of [debian/control] when there is
    one, keeping the date of the patch, and under its own incomplete
    authorship when the field does not parse; when the field is missing
    [IndexError] is raised before the patch is applied and nothing has
    changed. *)
Theorem apply_and_commit_author (w : World) (p : Patch) (t : option string)
  (tip : commit) :
  lookup (head w) (branches w) = Some tip ->
  patch_applies tip p = true ->
  let own := mkIdentity (author p) (email p) (date p) in
  let committed_as a w' :=
    apply_and_commit_patch patch_applies p t w = (Ok tt, w') /\
    lookup (head w) (branches w') = Some (Commit (commit_msg p t) a tip) in
  (has_authorship p = true -> exists w', committed_as own w') /\
  (has_authorship p = false ->
   (forall n e, get_maintainer_from_control (control w) = Ok (Some n, Some e) ->
      exists w', committed_as (mkIdentity (Some n) (Some e) (date p)) w') /\
   (get_maintainer_from_control (control w) = Ok (None, None) ->
      exists w', committed_as own w') /\
   (get_maintainer_from_control (control w) = Raise IndexError ->
      apply_and_commit_patch patch_applies p t w = (Raise IndexError, w))).
Proof.
  intros Htip Happ own committed_as. unfold committed_as.
  assert (Hrun : forall a, resolvable (control w) p = true ->
            author_of (control w) p = a ->
            exists w', apply_and_commit_patch patch_applies p t w = (Ok tt, w') /\
              lookup (head w) (branches w') = Some (Commit (commit_msg p t) a tip)).
  { intros a Hres Ha.
    rewrite (apply_and_commit_general w p t tip Hres Htip), Happ, Ha.
    eexists. split; [reflexivity|]. cbn [branches]. apply lookup_cons_eq. }
  split.
  - intros Hown. apply Hrun.
    + unfold resolvable. now rewrite Hown.
    + unfold author_of. now rewrite Hown.
  - intros Hown. split; [|split].
    + intros n e Hm.
      destruct (get_maintainer_name_truthy _ _ _ Hm) as (c & n' & ->).
      apply Hrun.
      * unfold resolvable. now rewrite Hown, Hm.
      * unfold author_of. now rewrite Hown, Hm.
    + intros Hm. apply Hrun.
      * unfold resolvable. now rewrite Hown, Hm.
      * unfold author_of. now rewrite Hown, Hm.
    + intros Hm. apply apply_and_commit_unresolvable.
      unfold resolvable. now rewrite Hown, Hm.
Qed.

(** X8.  A patch that does not apply leaves no commit behind:
    [apply_and_commit_patch] raises [CommandExecFailed], and branches
    and current branch are as before. *)
Theorem apply_and_commit_failure (w : World) (p : Patch) (t : option string)
  (tip : commit) :
  resolvable (control w) p = true ->
  lookup (head w) (branches w) = Some tip ->
  patch_applies tip p = false ->
  exists w',
    apply_and_commit_patch patch_applies p t w = (Raise CommandExecFailed, w') /\
    branches w' = branches w /\ head w' = head w /\
    log w' = (log w ++ [EvApplyPatch (path p)])%list.
Proof.
  intros Hres Htip Happ.
  rewrite (apply_and_commit_general w p t tip Hres Htip), Happ.
  eexists. now repeat split.
Qed.

End CoordinatorProperties.

Lemma apply_and_commit_author_witness :
  exists w',
    apply_and_commit_patch (fun _ _ => true) sample_unauthored_patch
                           (Some "docs") sample_world_control = (Ok tt, w') /\
    lookup "master" (branches w')
    = Some (Commit (commit_msg sample_unauthored_patch (Some "docs"))
                   (mkIdentity (Some "Jane Doe") (Some "jane@example.org")
                               (Some "2011-12-01"))
                   sample_c2).
Proof.
  pose proof (apply_and_commit_author (fun _ _ => true) sample_world_control
                sample_unauthored_patch (Some "docs") sample_c2
                eq_refl eq_refl) as H.
  cbv zeta in H. destruct H as (_ & H).
  destruct (H eq_refl) as (Hm & _ & _).
  exact (Hm "Jane Doe" "jane@example.org" eq_refl).
Defined.

Lemma apply_and_commit_failure_witness :
  exists w',
    apply_and_commit_patch (fun _ _ => false) sample_patch None sample_world
    = (Raise CommandExecFailed, w') /\
    branches w' = branches sample_world /\ head w' = "master".
Proof.
  destruct (apply_and_commit_failure (fun _ _ => false) sample_world
              sample_patch None sample_c2 eq_refl eq_refl eq_refl)
    as (w' & Hrun & Hb & Hh & _).
  exists w'. now repeat split.
Defined.

Section SwitchProperties.

Variable patch_applies : commit -> Patch -> bool.
Variable branch_creatable : string -> bool.

Lemma pq_name_of_plain (branch : string) :
  is_pq_branch branch = false ->
  fmt (pq_branch_name branch) = PQ_BRANCH_PREFIX ++ branch.
Proof. unfold pq_branch_name. now intros ->. Qed.

(** The outcomes of [switch_to_pq_branch] on a branch that is not a
    patch-queue branch. *)
Lemma switch_to_pq_branch_plain (branch : string) (w : World) :
  is_pq_branch branch = false ->
  let pq := PQ_BRANCH_PREFIX ++ branch in
  switch_to_pq_branch branch_creatable branch w =
  match lookup pq (branches w) with
  | Some _ =>
      (Ok tt, mkWorld (branches w) pq (control w) (series_files w) (tmpdirs w)
                      (log w ++ [EvSetBranch pq])%list)
  | None =>
      match lookup (head w) (branches w) with
      | Some tip =>
          if branch_creatable pq
          then (Ok tt,
                mkWorld ((pq, tip) :: branches w) pq (control w)
                        (series_files w) (tmpdirs w)
                        (log w ++ [EvCreateBranch pq tip; EvSetBranch pq])%list)
          else (Raise (GbpError ("Cannot create patch-queue branch '" ++ pq
                                   ++ "'. Try 'rebase' instead.")),
                emit (EvCreateBranch pq tip) w)
      | None =>
          (Raise (GbpError ("Cannot create patch-queue branch '" ++ pq
                              ++ "'. Try 'rebase' instead.")), w)
      end
  end.
Proof.
  intros Hpq pq. unfold switch_to_pq_branch. rewrite Hpq.
  rewrite (pq_name_of_plain branch Hpq). fold pq.
  unfold bind, has_branch, create_branch_at_head, create_branch, set_branch.
  destruct (lookup pq (branches w)) as [t|] eqn:El; cbn [negb].
  - reflexivity.
  - destruct (lookup (head w) (branches w)) as [tip|]; [|reflexivity].
    unfold has_branch, emit. cbn [branches]. rewrite El. cbn [orb].
    destruct (branch_creatable pq); cbn [negb]; [|reflexivity].
    unfold with_branches, with_head, emit.
    cbn [head branches control series_files tmpdirs log].
    now rewrite app_assoc'.
Qed.

(** X9.  [switch_to_pq_branch] does nothing on a patch-queue branch.
    On another branch it makes the patch-queue branch current; an
    existing one is left where it is, a missing one is created at the
    tip of the current branch; no other branch moves.  When the branch
    is missing and cannot be created it raises [GbpError] with the
    advice to try rebase, and branches and current branch are as
    before. *)
Theorem switch_to_pq_branch_spec (branch : string) (w : World) :
  let pq := PQ_BRANCH_PREFIX ++ branch in
  (is_pq_branch branch = true ->
   switch_to_pq_branch branch_creatable branch w = (Ok tt, w)) /\
  (is_pq_branch branch = false ->
   (forall t, lookup pq (branches w) = Some t ->
      exists w', switch_to_pq_branch branch_creatable branch w = (Ok tt, w') /\
                 head w' = pq /\ branches w' = branches w) /\
   (forall tip,
      lookup pq (branches w) = None ->
      lookup (head w) (branches w) = Some tip ->
      branch_creatable pq = true ->
      exists w', switch_to_pq_branch branch_creatable branch w = (Ok tt, w') /\
                 head w' = pq /\ branches w' = (pq, tip) :: branches w) /\
   (lookup pq (branches w) = None ->
    branch_creatable pq = false \/ lookup (head w) (branches w) = None ->
    exists w',
      switch_to_pq_branch branch_creatable branch w
      = (Raise (GbpError ("Cannot create patch-queue branch '" ++ pq
                            ++ "'. Try 'rebase' instead.")), w') /\
      head w' = head w /\ branches w' = branches w)).
Proof.
  intros pq. split.
  - intros Hpq. unfold switch_to_pq_branch. now rewrite Hpq.
  - intros Hpq. pose proof (switch_to_pq_branch_plain branch w Hpq) as Hrun.
    cbv zeta in Hrun. fold pq in Hrun. split; [|split].
    + intros t Ht. rewrite Ht in Hrun. eexists. split; [exact Hrun|].
      now split.
    + intros tip Hnone Htip Hc. rewrite Hnone, Htip, Hc in Hrun.
      eexists. split; [exact Hrun|]. now split.
    + intros Hnone Hwhy. rewrite Hnone in Hrun.
      destruct (lookup (head w) (branches w)) as [tip|].
      * destruct Hwhy as [Hc|Hc]; [|discriminate]. rewrite Hc in Hrun.
        eexists. split; [exact Hrun|]. now split.
      * eexists. split; [exact Hrun|]. now split.
Qed.

(** X10.  [apply_single_patch] from a branch that is not a patch-queue
    branch puts exactly one commit on the patch-queue branch: its parent
    is the previous tip of that branch, or the tip of the current branch
    when the patch-queue branch had to be created; its message is built
    from the patch and the given topic; the patch-queue branch is
    current afterwards and every other branch is where it was. *)
Theorem apply_single_patch_adds_commit (branch : string) (p : Patch)
  (t : option string) (w : World) (start : commit) :
  is_pq_branch branch = false ->
  resolvable (control w) p = true ->
  let pq := PQ_BRANCH_PREFIX ++ branch in
  lookup pq (branches w) = Some start \/
  (lookup pq (branches w) = None /\
   lookup (head w) (branches w) = Some start /\
   branch_creatable pq = true) ->
  patch_applies start p = true ->
  exists w',
    apply_single_patch patch_applies branch_creatable branch p t w = (Ok tt, w') /\
    head w' = pq /\
    lookup pq (branches w')
    = Some (Commit (commit_msg p t) (author_of (control w) p) start) /\
    (forall b, b <> pq -> lookup b (branches w') = lookup b (branches w)).
Proof.
  intros Hpq Hres pq Hstart Happ.
  unfold apply_single_patch. unfold bind at 1.
  pose proof (switch_to_pq_branch_plain branch w Hpq) as Hsw.
  cbv zeta in Hsw. fold pq in Hsw.
  destruct Hstart as [Hex | (Hnone & Htip & Hc)].
  - rewrite Hex in Hsw. rewrite Hsw.
    erewrite apply_and_commit_general;
      [| exact Hres | cbn [head branches]; exact Hex].
    rewrite Happ. eexists. split; [reflexivity|].
    cbn [head branches control]. split; [reflexivity|].
    split; [apply lookup_cons_eq|].
    intros b Hb. cbn [lookup].
    destruct (String.eqb b pq) eqn:E;
      [apply String.eqb_eq in E; contradiction|].
    now apply lookup_remove_ne.
  - rewrite Hnone, Htip, Hc in Hsw. rewrite Hsw.
    erewrite apply_and_commit_general;
      [| exact Hres | cbn [head branches]; apply lookup_cons_eq].
    rewrite Happ. eexists. split; [reflexivity|].
    cbn [head branches control]. split; [reflexivity|].
    split; [apply lookup_cons_eq|].
    intros b Hb. cbn [lookup remove]. rewrite String.eqb_refl.
    destruct (String.eqb b pq) eqn:E;
      [apply String.eqb_eq in E; contradiction|].
    now apply lookup_remove_ne.
Qed.

End SwitchProperties.

Lemma switch_to_pq_branch_spec_witness :
  exists w',
    switch_to_pq_branch (fun _ => true) "master" sample_world = (Ok tt, w') /\
    head w' = "patch-queue/master" /\
    branches w' = ("patch-queue/master", sample_c2) :: branches sample_world.
Proof.
  pose proof (switch_to_pq_branch_spec (fun _ => true) "master" sample_world)
    as H.
  cbv zeta in H. destruct H as (_ & H).
  destruct (H eq_refl) as (_ & Hnew & _).
  exact (Hnew sample_c2 eq_refl eq_refl eq_refl).
Defined.

Lemma apply_single_patch_adds_commit_witness :
  exists w',
    apply_single_patch (fun _ _ => true) (fun _ => true) "master"
                       sample_patch (Some "docs") sample_world_with_pq
    = (Ok tt, w') /\
    head w' = "patch-queue/master" /\
    lookup "patch-queue/master" (branches w')
    = Some (Commit (commit_msg sample_patch (Some "docs")) sample_author
                   sample_c1) /\
    lookup "master" (branches w') = Some sample_c2.
Proof.
  destruct (apply_single_patch_adds_commit (fun _ _ => true) (fun _ => true)
              "master" sample_patch (Some "docs") sample_world_with_pq
              sample_c1 eq_refl eq_refl (or_introl eq_refl) eq_refl)
    as (w' & Hrun & Hh & Htip & Hframe).
  exists w'. split; [exact Hrun|]. split; [exact Hh|]. split; [exact Htip|].
  rewrite Hframe; [reflexivity | discriminate].
Defined.

(** ** More on the import engine *)

Lemma same_tree_refl (w : World) : same_tree w w.
Proof. now repeat split. Qed.

Lemma same_tree_trans (w1 w2 w3 : World) :
  same_tree w1 w2 -> same_tree w2 w3 -> same_tree w1 w3.
Proof.
  intros (A1 & A2 & A3) (B1 & B2 & B3).
  repeat split; congruence.
Qed.

Section FrameProperties.

Variable patch_applies : commit -> Patch -> bool.
Variable branch_creatable : string -> bool.
Variable mkdtemp_suffix : string.

Lemma apply_and_commit_same_tree (p : Patch) (t : option string) (w : World) :
  same_tree w (snd (apply_and_commit_patch patch_applies p t w)).
Proof.
  unfold apply_and_commit_patch, bind, resolve_author, apply_patch,
    commit_on_head.
  destruct (negb (truthy (author p) && truthy (email p))).
  - destruct (get_maintainer_from_control (control w)) as [[n e]|e];
      [|apply same_tree_refl].
    destruct (truthy n); cbn [emit head branches];
      (destruct (lookup (head w) (branches w)) as [tip|];
       [destruct (patch_applies tip p)|]); now repeat split.
  - cbn [emit head branches].
    destruct (lookup (head w) (branches w)) as [tip|];
      [destruct (patch_applies tip p)|]; now repeat split.
Qed.

Lemma apply_queue_same_tree (branch pq : string) (queue : list Patch) :
  forall w, same_tree w (snd (apply_queue patch_applies branch pq queue w)).
Proof.
  induction queue as [|p rest IH]; intros w; [apply same_tree_refl|].
  cbn [apply_queue].
  pose proof (apply_and_commit_same_tree p (topic p) w) as Hstep.
  destruct (apply_and_commit_patch patch_applies p (topic p) w) as [[u|e] w1].
  - cbn [snd] in Hstep. exact (same_tree_trans _ _ _ Hstep (IH w1)).
  - cbn [snd] in Hstep. destruct (caught e); [|exact Hstep].
    eapply same_tree_trans; [exact Hstep | now repeat split].
Qed.

Lemma try_commits_same_tree (branch pq : string) (queue : list Patch)
  (commits : list commit) :
  forall w,
  same_tree w (snd (try_commits patch_applies branch_creatable branch pq
                                queue commits w)).
Proof.
  induction commits as [|c rest IH]; intros w; [apply same_tree_refl|].
  cbn [try_commits]. unfold bind at 1. unfold create_branch.
  destruct (has_branch pq (emit (EvCreateBranch pq c) w)
            || negb (branch_creatable pq)); [now repeat split|].
  unfold bind at 1. unfold set_branch at 1. unfold bind at 1.
  match goal with
  | |- context [apply_queue patch_applies branch pq queue ?w0] =>
      pose proof (apply_queue_same_tree branch pq queue w0) as Hq;
      destruct (apply_queue patch_applies branch pq queue w0) as [[a|e] w1]
  end; cbn [snd] in Hq.
  - assert (Hw1 : same_tree w w1)
      by (eapply same_tree_trans; [|exact Hq]; now repeat split).
    destruct a; [exact Hw1|].
    exact (same_tree_trans _ _ _ Hw1 (IH w1)).
  - eapply same_tree_trans; [|exact Hq]. now repeat split.
Qed.

Lemma import_branches_same_tree (branch : string) (force : bool) (w : World) :
  same_tree w (snd (import_branches branch force w)).
Proof.
  unfold import_branches, bind, checkout, ret, drop_pq, delete_branch, raise.
  destruct (is_pq_branch branch).
  - destruct force; [|apply same_tree_refl]. cbn [fst snd].
    destruct (has_branch _ _); [|now repeat split].
    destruct (is_pq_branch _); [now repeat split|].
    destruct (has_branch _ _); now repeat split.
  - cbn [fst snd]. destruct (has_branch _ w); [|apply same_tree_refl].
    destruct force; [|apply same_tree_refl].
    destruct (is_pq_branch branch); [apply same_tree_refl|].
    destruct (has_branch _ w); now repeat split.
Qed.

(** X11.  With [tries] at most 1, which is what the dispatcher passes
    unless a larger time-machine depth is configured,
    [import_quilt_patches] never creates a snapshot: whatever the
    outcome, the series files and the snapshot directories are those it
    started with. *)
Theorem import_single_try_no_snapshot (branch series : string) (tries : Z)
  (force : bool) (w : World) :
  (tries <= 1)%Z ->
  same_tree w (snd (import_quilt_patches patch_applies branch_creatable
                      mkdtemp_suffix branch series tries force w)).
Proof.
  intros Htries. unfold import_quilt_patches. unfold bind at 1.
  pose proof (import_branches_same_tree branch force w) as Hpre.
  destruct (import_branches branch force w) as [[[b pq]|e] w1];
    cbn [snd] in Hpre; [|exact Hpre].
  cbn [fst snd]. eapply same_tree_trans; [exact Hpre|].
  unfold import_time_machine. unfold bind at 1. unfold bind at 1.
  assert (Hlen : Nat.ltb 1 (List.length (get_commits tries w1)) = false).
  { apply Nat.ltb_ge. pose proof (get_commits_length tries w1). lia. }
  rewrite Hlen. unfold ret at 1. unfold bind at 1. unfold read_series_file.
  destruct (lookup series (series_files w1)) as [queue|];
    [|apply same_tree_refl].
  unfold bind at 1.
  pose proof (try_commits_same_tree b pq queue (get_commits tries w1) w1) as Ht.
  destruct (try_commits patch_applies branch_creatable b pq queue
              (get_commits tries w1) w1) as [[u|e] w2]; exact Ht.
Qed.

End FrameProperties.

Lemma import_single_try_no_snapshot_witness :
  tmpdirs (snd (import_quilt_patches (fun _ _ => false) (fun _ => true)
                  "XXXXXX" "master" SERIES_FILE 1 false sample_world)) = [].
Proof.
  destruct (import_single_try_no_snapshot (fun _ _ => false) (fun _ => true)
              "XXXXXX" "master" SERIES_FILE 1 false sample_world
              (Z.le_refl 1)) as (_ & _ & Ht).
  exact Ht.
Defined.

Lemma attempt_series_stack (patch_applies : commit -> Patch -> bool)
  (control : option string) (queue : list Patch) :
  forall tip t,
  snd (attempt_series patch_applies control tip queue) = Some t ->
  t = stack_series control tip queue.
Proof.
  unfold stack_series.
  induction queue as [|p rest IH]; intros tip t; cbn [attempt_series fold_left].
  - cbn. congruence.
  - destruct (patch_applies tip p); [|discriminate].
    specialize (IH (commit_of control tip p) t).
    destruct (attempt_series patch_applies control (commit_of control tip p) rest).
    exact IH.
Qed.

Lemma ancestor_stack (control : option string) (queue : list Patch) :
  forall base,
  ancestor (List.length queue) (stack_series control base queue) = Some base.
Proof.
  unfold stack_series.
  induction queue as [|p rest IH]; intros base; [reflexivity|].
  cbn [List.length ancestor fold_left]. now rewrite IH.
Qed.

Lemma lookup_filter_key {A : Type} (keep : string -> bool) (k : string)
  (m : list (string * A)) :
  keep k = true ->
  lookup k (filter (fun kv => keep (fst kv)) m) = lookup k m.
Proof.
  intros Hk. induction m as [|[k0 v] m IH]; [reflexivity|].
  cbn [filter fst lookup]. destruct (String.eqb k k0) eqn:E.
  - apply String.eqb_eq in E. subst k0. rewrite Hk. cbn [lookup].
    now rewrite String.eqb_refl.
  - destruct (keep k0); [cbn [lookup]; now rewrite E | exact IH].
Qed.

Section HistoryProperties.

Variable patch_applies : commit -> Patch -> bool.
Variable branch_creatable : string -> bool.
Variable mkdtemp_suffix : string.

(** X12.  What a completed import leaves in the repository.  When the
    import returns, the patch-queue branch is one of the candidates
    with one commit per patch stacked on it in series order, oldest
    first, so the candidate is found again [len(queue)] first parents
    below the tip.  When it gives up, the branch table is exactly as it
    was after the preconditions and the base branch is current.  In
    both cases no branch other than the patch-queue branch has moved. *)
Theorem import_builds_history (branch series : string) (tries : Z)
  (force : bool) (w w1 : World) (b pq : string) (queue : list Patch) :
  head w = branch ->
  import_branches branch force w = (Ok (b, pq), w1) ->
  lookup series (series_files w) = Some queue ->
  forallb (resolvable (control w)) queue = true ->
  branch_creatable pq = true ->
  exists r w',
    import_quilt_patches patch_applies branch_creatable mkdtemp_suffix
                         branch series tries force w = (r, w') /\
    (forall b', b' <> pq -> lookup b' (branches w') = lookup b' (branches w1)) /\
    match r with
    | Ok _ =>
        exists c,
          In c (get_commits tries w1) /\
          lookup pq (branches w') = Some (stack_series (control w) c queue) /\
          ancestor (List.length queue) (stack_series (control w) c queue)
          = Some c /\
          head w' = pq
    | Raise e =>
        e = GbpError "Couldn't apply patches" /\
        branches w' = branches w1 /\ head w' = b
    end.
Proof.
  intros Hhead Hib Hser Hres Hcreate.
  destruct (import_branches_ok branch force w w1 b pq Hib)
    as (Habs & Hc & Hs & Ht & Hcase).
  assert (Hhead1 : head w1 = b).
  { destruct (is_pq_branch branch); [exact Hcase|].
    destruct Hcase as [-> ->]. exact Hhead. }
  rewrite <- Hs in Hser. rewrite <- Hc in Hres.
  unfold import_quilt_patches. unfold bind at 1. rewrite Hib. cbn [fst snd].
  eexists; eexists. split.
  { apply (import_time_machine_spec patch_applies branch_creatable
             mkdtemp_suffix b pq series tries queue w1
             Hhead1 Habs Hcreate Hser Hres). }
  unfold time_machine_result. rewrite Hc.
  destruct (find (series_applies patch_applies (control w) queue)
                 (get_commits tries w1)) as [c|] eqn:Efind.
  - apply find_some in Efind as [Hin Hok]. unfold series_applies in Hok.
    destruct (snd (attempt_series patch_applies (control w) c queue))
      as [t|] eqn:Et; [|discriminate].
    cbn [branches head]. split.
    + intros b' Hb'. cbn [lookup].
      destruct (String.eqb b' pq) eqn:E;
        [apply String.eqb_eq in E; contradiction | reflexivity].
    + exists c. split; [exact Hin|].
      rewrite (attempt_series_stack _ _ _ _ _ Et).
      split; [apply lookup_cons_eq|]. split; [apply ancestor_stack | reflexivity].
  - cbn [branches head]. split; [reflexivity|]. now repeat split.
Qed.

Lemma import_branches_force_on_pq (base : string) (w : World) :
  is_pq_branch base = false ->
  has_branch (PQ_BRANCH_PREFIX ++ base) w = true ->
  import_branches (PQ_BRANCH_PREFIX ++ base) true w =
  (Ok (base, PQ_BRANCH_PREFIX ++ base),
   mkWorld (remove (PQ_BRANCH_PREFIX ++ base) (branches w)) base (control w)
           (series_files w) (tmpdirs w)
           (log w ++ [EvCheckout base;
                      EvDeleteBranch (PQ_BRANCH_PREFIX ++ base)])%list).
Proof.
  intros Hbase Hhas. unfold import_branches, bind, ret, checkout.
  rewrite is_pq_branch_prefixed. unfold pq_branch_base.
  rewrite is_pq_branch_prefixed. cbn [fmt fst snd].
  replace (Py.drop (Py.len PQ_BRANCH_PREFIX) (PQ_BRANCH_PREFIX ++ base))
    with base by (symmetry; apply drop_app).
  rewrite (pq_name_of_plain base Hbase).
  replace (has_branch (PQ_BRANCH_PREFIX ++ base)
             (emit (EvCheckout base) (with_head base w)))
    with (has_branch (PQ_BRANCH_PREFIX ++ base) w) by reflexivity.
  rewrite Hhas. unfold drop_pq. rewrite Hbase.
  rewrite (pq_name_of_plain base Hbase).
  replace (has_branch (PQ_BRANCH_PREFIX ++ base)
             (emit (EvCheckout base) (with_head base w)))
    with (has_branch (PQ_BRANCH_PREFIX ++ base) w) by reflexivity.
  rewrite Hhas. unfold delete_branch, emit, with_branches, with_head.
  cbn [head branches control series_files tmpdirs log fst snd].
  now rewrite app_assoc'.
Qed.

Lemma import_branches_plain (branch : string) (w : World) :
  is_pq_branch branch = false ->
  has_branch (PQ_BRANCH_PREFIX ++ branch) w = false ->
  import_branches branch false w = (Ok (branch, PQ_BRANCH_PREFIX ++ branch), w).
Proof.
  intros Hpq Hhas. unfold import_branches, bind, ret. rewrite Hpq.
  rewrite (pq_name_of_plain branch Hpq). now rewrite Hhas.
Qed.

(** X13.  A forced import repeats an import.  After
    [import_quilt_patches] has succeeded from a branch, the patch-queue
    branch is current; calling it again there with [force] drops the
    patch-queue branch, runs the time machine on the base branch again
    and ends with the same branches and the same current branch. *)
Theorem forced_import_repeats (branch : string) (tries : Z) (w w' : World)
  (queue : list Patch) :
  is_pq_branch branch = false ->
  head w = branch ->
  has_branch (PQ_BRANCH_PREFIX ++ branch) w = false ->
  branch_creatable (PQ_BRANCH_PREFIX ++ branch) = true ->
  lookup SERIES_FILE (series_files w) = Some queue ->
  forallb (resolvable (control w)) queue = true ->
  import_quilt_patches patch_applies branch_creatable mkdtemp_suffix
                       branch SERIES_FILE tries false w = (Ok tt, w') ->
  head w' = PQ_BRANCH_PREFIX ++ branch /\
  exists w'',
    import_quilt_patches patch_applies branch_creatable mkdtemp_suffix
                         (head w') SERIES_FILE tries true w' = (Ok tt, w'') /\
    branches w'' = branches w' /\ head w'' = head w'.
Proof.
  intros Hpq Hhead Hhas Hcreate Hser Hres Hrun.
  set (pq := PQ_BRANCH_PREFIX ++ branch) in *.
  assert (Habs : lookup pq (branches w) = None).
  { unfold has_branch in Hhas. now destruct (lookup pq (branches w)). }
  unfold import_quilt_patches in Hrun. unfold bind at 1 in Hrun.
  rewrite (import_branches_plain branch w Hpq Hhas) in Hrun.
  cbn [fst snd] in Hrun. fold pq in Hrun.
  rewrite (import_time_machine_spec patch_applies branch_creatable
             mkdtemp_suffix branch pq SERIES_FILE tries queue w
             Hhead Habs Hcreate Hser Hres) in Hrun.
  destruct (time_machine_result patch_applies (control w) queue
              (get_commits tries w)) as [[c t]|] eqn:Efound; [|discriminate].
  apply (f_equal snd) in Hrun. cbn [snd] in Hrun. subst w'.
  cbn [head branches]. split; [reflexivity|].
  unfold import_quilt_patches. unfold bind at 1. unfold pq at 1.
  rewrite (import_branches_force_on_pq branch _ Hpq)
    by (unfold has_branch; cbn [branches]; fold pq; now rewrite lookup_cons_eq).
  cbn [fst snd]. fold pq.
  match goal with
  | |- context [import_time_machine _ _ _ _ _ _ _ ?W] => set (w1 := W)
  end.
  assert (Hb1 : branches w1 = branches w).
  { subst w1. cbn [branches remove]. fold pq.
    now rewrite String.eqb_refl, (remove_absent _ _ Habs). }
  assert (Hh1 : head w1 = branch) by reflexivity.
  assert (Hc1 : control w1 = control w) by reflexivity.
  assert (Habs1 : lookup pq (branches w1) = None) by (now rewrite Hb1).
  assert (Hres1 : forallb (resolvable (control w1)) queue = true)
    by (now rewrite Hc1).
  assert (Hser1 : lookup SERIES_FILE (series_files w1) = Some queue).
  { subst w1. cbn [series_files].
    destruct (Nat.ltb 1 (List.length (get_commits tries w))); [|exact Hser].
    rewrite (lookup_filter_key
               (fun k => negb (Py.startswith k (snapshot_dir mkdtemp_suffix ++ "/")))
               SERIES_FILE _ eq_refl).
    cbn [lookup].
    destruct (String.eqb SERIES_FILE _); [reflexivity | exact Hser]. }
  assert (Hcs : get_commits tries w1 = get_commits tries w).
  { unfold get_commits. now rewrite Hh1, Hb1, Hhead. }
  rewrite (import_time_machine_spec patch_applies branch_creatable
             mkdtemp_suffix branch pq SERIES_FILE tries queue w1
             Hh1 Habs1 Hcreate Hser1 Hres1).
  rewrite Hcs, Hc1, Efound, Hb1.
  eexists. split; [reflexivity|]. cbn [branches head]. now split.
Qed.

End HistoryProperties.

Lemma import_builds_history_witness :
  exists w',
    import_quilt_patches applies_at_c0 (fun _ => true) "XXXXXX"
                         "master" SERIES_FILE 3 false sample_world
    = (Ok tt, w') /\
    lookup "master" (branches w') = Some sample_c2 /\
    lookup "patch-queue/master" (branches w')
    = Some (stack_series None sample_c0 [sample_patch]).
Proof.
  destruct (import_builds_history applies_at_c0 (fun _ => true) "XXXXXX"
              "master" SERIES_FILE 3 false sample_world sample_world
              "master" "patch-queue/master" [sample_patch]
              eq_refl eq_refl eq_refl eq_refl eq_refl)
    as (r & w' & Hrun & Hframe & Hr).
  assert (Hres : r = Ok tt).
  { vm_compute in Hrun. congruence. }
  subst r. destruct Hr as (c & _ & Htip & _).
  exists w'. split; [exact Hrun|]. split.
  - rewrite Hframe; [reflexivity | discriminate].
  - assert (Hc : c = sample_c0).
    { vm_compute in Hrun. injection Hrun as Hw. subst w'.
      vm_compute in Htip. now injection Htip. }
    now subst c.
Defined.

Lemma forced_import_repeats_witness :
  exists w' w'',
    import_quilt_patches applies_at_c0 (fun _ => true) "XXXXXX"
                         "master" SERIES_FILE 3 false sample_world
    = (Ok tt, w') /\
    import_quilt_patches applies_at_c0 (fun _ => true) "XXXXXX"
                         "patch-queue/master" SERIES_FILE 3 true w'
    = (Ok tt, w'') /\
    branches w'' = branches w'.
Proof.
  destruct (import_quilt_patches applies_at_c0 (fun _ => true) "XXXXXX"
              "master" SERIES_FILE 3 false sample_world) as [r w'] eqn:Erun.
  assert (Hr : r = Ok tt) by (vm_compute in Erun; congruence).
  subst r.
  destruct (forced_import_repeats applies_at_c0 (fun _ => true) "XXXXXX"
              "master" 3 sample_world w' [sample_patch]
              eq_refl eq_refl eq_refl eq_refl eq_refl eq_refl Erun)
    as (Hh & w'' & Hagain & Hb & _).
  exists w', w''. split; [reflexivity|]. rewrite Hh in Hagain.
  split; [exact Hagain | exact Hb].
Defined.

Section PartialStateProperties.

Variable patch_applies : commit -> Patch -> bool.
Variable branch_creatable : string -> bool.
Variable mkdtemp_suffix : string.

(** X14.  An author lookup that raises escapes the time machine.  When
    the first patch of the series has no authorship of its own and
    [debian/control] names no maintainer, [import_quilt_patches] raises
    [IndexError] at the first candidate; the handler of the inner loop
    does not catch it, so nothing is rolled back: the patch-queue
    branch stays, at the tip of the base branch, and stays checked
    out. *)
Theorem import_unresolved_author_escapes (branch series : string) (tries : Z)
  (force : bool) (w w1 : World) (b pq : string) (p : Patch)
  (rest : list Patch) (tip : commit) :
  head w = branch ->
  import_branches branch force w = (Ok (b, pq), w1) ->
  lookup series (series_files w) = Some (p :: rest) ->
  resolvable (control w) p = false ->
  branch_creatable pq = true ->
  lookup b (branches w1) = Some tip ->
  (0 < tries)%Z ->
  exists w',
    import_quilt_patches patch_applies branch_creatable mkdtemp_suffix
                         branch series tries force w = (Raise IndexError, w') /\
    head w' = pq /\ lookup pq (branches w') = Some tip /\
    log w' = (log w1 ++ [EvCreateBranch pq tip; EvSetBranch pq])%list.
Proof.
  intros Hhead Hib Hser Hres Hcreate Htip Hpos.
  destruct (import_branches_ok branch force w w1 b pq Hib)
    as (Habs & Hc & Hs & Ht & Hcase).
  assert (Hhead1 : head w1 = b).
  { destruct (is_pq_branch branch); [exact Hcase|].
    destruct Hcase as [-> ->]. exact Hhead. }
  rewrite <- Hs in Hser. rewrite <- Hc in Hres.
  destruct (get_commits_tip tries w1 tip) as [cs Hcs];
    [now rewrite Hhead1 | exact Hpos |].
  assert (Htry : forall w2 : World,
            branches w2 = branches w1 -> control w2 = control w1 ->
            exists w',
              try_commits patch_applies branch_creatable b pq (p :: rest)
                          (tip :: cs) w2 = (Raise IndexError, w') /\
              head w' = pq /\ lookup pq (branches w') = Some tip /\
              log w' = (log w2 ++ [EvCreateBranch pq tip; EvSetBranch pq])%list).
  { intros w2 Hb2 Hc2. cbn [try_commits]. unfold bind at 1.
    unfold create_branch, has_branch, emit. cbn [branches].
    rewrite Hb2, Habs, Hcreate. cbn [orb negb].
    unfold bind at 1. unfold set_branch at 1. unfold bind at 1.
    cbn [apply_queue].
    rewrite apply_and_commit_unresolvable
      by (cbn [control with_head with_branches emit]; now rewrite Hc2).
    cbn [caught]. eexists. split; [reflexivity|].
    unfold emit, with_head, with_branches.
    cbn [head branches log control series_files tmpdirs].
    split; [reflexivity|]. split; [apply lookup_cons_eq|].
    now rewrite app_assoc'. }
  unfold import_quilt_patches. unfold bind at 1. rewrite Hib. cbn [fst snd].
  unfold import_time_machine. unfold bind at 1. unfold bind at 1.
  rewrite Hcs.
  destruct (Nat.ltb 1 (List.length (tip :: cs))).
  - unfold bind at 1. unfold safe_patches. rewrite Hser.
    unfold ret at 1. cbn [fst snd]. unfold bind at 1.
    unfold read_series_file at 1. cbn [series_files]. rewrite lookup_cons_eq.
    unfold bind at 1.
    match goal with
    | |- context [try_commits _ _ _ _ _ _ ?W] =>
        destruct (Htry W eq_refl eq_refl) as (w' & Hrun & Hh & Hl & Hlog)
    end.
    rewrite Hrun. exists w'. now repeat split.
  - unfold ret at 1. unfold bind at 1. unfold read_series_file at 1.
    rewrite Hser. unfold bind at 1.
    destruct (Htry w1 eq_refl eq_refl) as (w' & Hrun & Hh & Hl & Hlog).
    rewrite Hrun. exists w'. now repeat split.
Qed.

End PartialStateProperties.

Lemma import_unresolved_author_escapes_witness :
  exists w',
    import_quilt_patches (fun _ _ => true) (fun _ => true) "XXXXXX" "master"
      SERIES_FILE 1 false
      (mkWorld [("master", sample_c2)] "master" None
               [(SERIES_FILE, [sample_unauthored_patch])] [] [])
    = (Raise IndexError, w') /\
    head w' = "patch-queue/master" /\
    lookup "patch-queue/master" (branches w') = Some sample_c2.
Proof.
  destruct (import_unresolved_author_escapes (fun _ _ => true) (fun _ => true)
              "XXXXXX" "master" SERIES_FILE 1 false
              (mkWorld [("master", sample_c2)] "master" None
                       [(SERIES_FILE, [sample_unauthored_patch])] [] [])
              (mkWorld [("master", sample_c2)] "master" None
                       [(SERIES_FILE, [sample_unauthored_patch])] [] [])
              "master" "patch-queue/master" sample_unauthored_patch []
              sample_c2 eq_refl eq_refl eq_refl eq_refl eq_refl eq_refl
              eq_refl)
    as (w' & Hrun & Hh & Hl & _).
  exists w'. now repeat split.
Defined.







Section SnapshotRoundTrip.

Variable mkdtemp_suffix : string.


End SnapshotRoundTrip.


(** ** More on PatchTransform *)



Lemma fs_read_makedirs (fs : FS) (d q : string) :
  fs_read (fs_makedirs fs d) q = fs_read fs q.
Proof. reflexivity. Qed.




















(** ** Rebase *)

Section RebaseProperties.

Variable branch_creatable : string -> bool.
Variable git_rebase : string -> M unit.

(** X19.  [rebase_pq] runs [git rebase] against the base branch with
    the patch-queue branch checked out.  From a patch-queue branch it
    rebases at once onto the name without the prefix.  From another
    branch it switches first, and the rebase it then runs is the one it
    would run when called on the patch-queue branch afterwards; when the
    switch fails, [git rebase] is not run. *)
Theorem rebase_pq_spec (branch : string) (w : World) :
  (forall base, pq_branch_base branch = Some base ->
     rebase_pq branch_creatable git_rebase branch w = git_rebase base w) /\
  (is_pq_branch branch = false ->
   (forall w',
      switch_to_pq_branch branch_creatable branch w = (Ok tt, w') ->
      head w' = PQ_BRANCH_PREFIX ++ branch /\
      rebase_pq branch_creatable git_rebase branch w = git_rebase branch w' /\
      rebase_pq branch_creatable git_rebase (PQ_BRANCH_PREFIX ++ branch) w'
      = git_rebase branch w') /\
   (forall e w',
      switch_to_pq_branch branch_creatable branch w = (Raise e, w') ->
      rebase_pq branch_creatable git_rebase branch w = (Raise e, w'))).
Proof.
  split.
  - intros base Hbase. unfold rebase_pq, bind, ret.
    unfold pq_branch_base in Hbase |- *.
    destruct (is_pq_branch branch); [|discriminate].
    rewrite Hbase. reflexivity.
  - intros Hpq. split.
    + intros w' Hsw. split; [|split].
      * pose proof (switch_to_pq_branch_plain branch_creatable branch w Hpq)
          as Hrun.
        cbv zeta in Hrun. rewrite Hsw in Hrun.
        destruct (lookup (PQ_BRANCH_PREFIX ++ branch) (branches w)).
        -- injection Hrun as ->. reflexivity.
        -- destruct (lookup (head w) (branches w)); [|discriminate].
           destruct (branch_creatable _); [|discriminate].
           injection Hrun as ->. reflexivity.
      * unfold rebase_pq, bind, ret. rewrite Hpq.
        unfold bind. now rewrite Hsw.
      * unfold rebase_pq, bind, ret. rewrite is_pq_branch_prefixed.
        unfold pq_branch_base. rewrite is_pq_branch_prefixed. cbn [fmt].
        replace (Py.drop (Py.len PQ_BRANCH_PREFIX) (PQ_BRANCH_PREFIX ++ branch))
          with branch by (symmetry; apply drop_app).
        reflexivity.
    + intros e w' Hsw. unfold rebase_pq, bind, ret. rewrite Hpq.
      unfold bind. now rewrite Hsw.
Qed.

End RebaseProperties.

Lemma rebase_pq_spec_witness :
  exists w',
    head w' = "patch-queue/master" /\
    rebase_pq (fun _ => true) (fun base w => (Ok tt, w)) "master"
              sample_world_with_pq = (Ok tt, w').
Proof.
  destruct (switch_to_pq_branch (fun _ => true) "master" sample_world_with_pq)
    as [r w'] eqn:Esw.
  assert (Hr : r = Ok tt) by (vm_compute in Esw; congruence). subst r.
  destruct (proj2 (rebase_pq_spec (fun _ => true) (fun base w => (Ok tt, w))
                     "master" sample_world_with_pq) eq_refl)
    as (Hok & _).
  destruct (Hok w' Esw) as (Hh & Hrun & _).
  exists w'. split; [exact Hh | exact Hrun].
Defined.

(** ** ExportEngine *)

Lemma lookup_filter_none {A : Type} (keep : string -> bool) (k : string)
  (m : list (string * A)) :
  keep k = false ->
  lookup k (filter (fun kv => keep (fst kv)) m) = None.
Proof.
  intros Hk. induction m as [|[k0 v] m IH]; [reflexivity|].
  cbn [filter fst]. destruct (keep k0) eqn:E0; [|exact IH].
  cbn [lookup]. destruct (String.eqb k k0) eqn:E; [|exact IH].
  apply String.eqb_eq in E. subst k0. congruence.
Qed.

Lemma fs_read_rmtree (fs : FS) (dir q : string) :
  fs_read (fs_rmtree fs dir) q =
  if Py.startswith q dir then None else fs_read fs q.
Proof.
  unfold fs_read, fs_rmtree. cbn [fs_files].
  destruct (Py.startswith q dir) eqn:E.
  - apply (lookup_filter_none (fun k => negb (Py.startswith k dir))).
    now rewrite E.
  - apply (lookup_filter_key (fun k => negb (Py.startswith k dir))).
    now rewrite E.
Qed.





Lemma fs_read_isdir_choice (fs : FS) (d q : string) :
  fs_read (if fs_isdir fs d then fs else fs_makedirs fs d) q = fs_read fs q.
Proof. now destruct (fs_isdir fs d). Qed.





Section ExportProperties.

Variable format_patches :
  World -> string -> string -> res (list (string * string)).
Variable rmtree_oserror : FS -> option (string * FS).
Variable git_status : FS -> bool.



(** X21.  An export with nothing to export clears the patch
    directory.  When the patch-queue branch holds no commit of its own,
    [export_patches] returns, and afterwards no file is left below
    [debian/patches/], the manifest and patches of an earlier export
    included; files elsewhere are untouched. *)
Theorem export_nothing_clears (branch : string) (options : Options) (w : World)
  (fs : FS) :
  is_pq_branch branch = false ->
  rmtree_oserror fs = None ->
  format_patches w branch (PQ_BRANCH_PREFIX ++ branch) = Ok [] ->
  exists fs',
    export_patches format_patches rmtree_oserror git_status branch options
                   (w, fs) = (Ok tt, (w, fs')) /\
    forall q, fs_read fs' q =
              if Py.startswith q PATCH_DIR then None else fs_read fs q.
Proof.
  intros Hpq Hrm Hgen.
  unfold export_patches. rewrite Hpq, (pq_name_of_plain branch Hpq), Hrm, Hgen.
  cbn [map]. eexists. split; [reflexivity|]. intros q.
  unfold fs_format_patches. cbn [fold_left].
  now rewrite fs_read_isdir_choice, fs_read_rmtree.
Qed.

(** X22.  Exporting from the patch-queue branch is switching to its
    base and exporting from there. *)
Theorem export_from_pq_branch (base : string) (options : Options) (w : World)
  (fs : FS) :
  is_pq_branch base = false ->
  export_patches format_patches rmtree_oserror git_status
                 (PQ_BRANCH_PREFIX ++ base) options (w, fs)
  = export_patches format_patches rmtree_oserror git_status base options
                   (snd (set_branch base w), fs).
Proof.
  intros Hbase. unfold export_patches.
  rewrite is_pq_branch_prefixed, Hbase. unfold pq_branch_base.
  rewrite is_pq_branch_prefixed. cbn [fmt].
  replace (Py.drop (Py.len PQ_BRANCH_PREFIX) (PQ_BRANCH_PREFIX ++ base))
    with base by (symmetry; apply drop_app).
  reflexivity.
Qed.

End ExportProperties.


Lemma export_nothing_clears_witness :
  exists fs',
    export_patches (fun _ _ _ => Ok []) (fun _ => None) (fun _ => true)
                   "master" (mkOptions false 1 false None)
                   (sample_world, sample_export_fs)
    = (Ok tt, (sample_world, fs')) /\
    fs_read fs' "debian/patches/series" = None /\
    fs_read fs' "debian/patches/old.patch" = None /\
    fs_read fs' "debian/control" = Some "Source: hello".
Proof.
  destruct (export_nothing_clears (fun _ _ _ => Ok []) (fun _ => None)
              (fun _ => true) "master" (mkOptions false 1 false None)
              sample_world sample_export_fs eq_refl eq_refl eq_refl)
    as (fs' & Hrun & Hread).
  exists fs'. split; [exact Hrun|]. rewrite !Hread. now repeat split.
Defined.

Lemma export_from_pq_branch_witness :
  export_patches (fun _ _ _ => Ok sample_generated) (fun _ => None)
                 (fun _ => true) "patch-queue/master"
                 (mkOptions false 1 false None)
                 (sample_world_on_pq, sample_export_fs)
  = export_patches (fun _ _ _ => Ok sample_generated) (fun _ => None)
                   (fun _ => true) "master" (mkOptions false 1 false None)
                   (snd (set_branch "master" sample_world_on_pq),
                    sample_export_fs).
Proof.
  exact (export_from_pq_branch (fun _ _ _ => Ok sample_generated)
           (fun _ => None) (fun _ => true) "master"
           (mkOptions false 1 false None) sample_world_on_pq sample_export_fs
           eq_refl).
Defined.
